(** * message-for-me: the command parser, the announcement rate limit and
      the control loop of [main.go], with the settings of [settings.go].

    The bot is one goroutine that owns a [botState] and serves a [select]
    over its event channels.  The embedding keeps that shape: the loop body
    is a function from the selected case to a computation in a state monad
    whose state holds the bot, the contents of the [lastSentAuthors] map
    and the interaction so far (events received, calls made, log lines).
    What the Discord session, the persistent map and the clock answer is
    not decided by the program; it is read off an environment [Env] whose
    answers may depend on the whole interaction so far. *)

From Stdlib Require Import ZArith String Ascii List Bool Lia DecimalString.
From stdpp Require Import base gmap strings list.
Import ListNotations.
Local Open Scope Z_scope.

(** ** Library behaviour the program relies on but does not define *)

(** Functions of arikawa's [discord] package and of Go's [unicode] tables.
    They are parameters of the development: no theorem below depends on
    what they compute.
    - [IsValid]: [discord.Snowflake.IsValid], used on the guild identifier;
    - [Mention]: [discord.UserID.Mention], the token that mentions a user;
    - the three string functions are the non-ASCII slow paths of
      [strings.TrimSpace] and [strings.ToLower]. *)
Class External := {
  IsValid : Z -> bool;
  Mention : Z -> string;
  TrimFunc_IsSpace : string -> string;
  TrimRightFunc_IsSpace : string -> string;
  Map_ToLower : string -> string
}.

(** ** Go's [strings] package, on byte strings *)

Module GoStrings.

Definition byte (c : ascii) : Z := Z.of_N (N_of_ascii c).

(** [utf8.RuneSelf]: bytes below it are single-byte runes. *)
Definition RuneSelf : Z := 128.

(** The separator of [strings.Cut(msg.Content, "\n")]. *)
Definition LF : string := String "010" EmptyString.

(** [strings.HasPrefix(s, prefix)]. *)
Definition HasPrefix (s prefix : string) : bool := String.prefix prefix s.

Fixpoint dropBytes (n : nat) (s : string) : string :=
  match n, s with
  | O, _ => s
  | S n', String _ s' => dropBytes n' s'
  | S _, EmptyString => EmptyString
  end.

(** [strings.TrimPrefix(s, prefix)]: [s[len(prefix):]] when [s] begins with
    [prefix], and [s] itself otherwise. *)
Definition TrimPrefix (s prefix : string) : string :=
  if HasPrefix s prefix then dropBytes (String.length prefix) s else s.

(** [strings.Cut(s, sep)]: the text before and after the first occurrence of
    [sep]; [(s, "", false)] when [sep] does not occur. *)
Fixpoint Cut (s sep : string) : string * string * bool :=
  if HasPrefix s sep then (EmptyString, dropBytes (String.length sep) s, true)
  else match s with
       | EmptyString => (EmptyString, EmptyString, false)
       | String c s' =>
           let '(before, after, found) := Cut s' sep in
           (String c before, after, found)
       end.

(** The [asciiSpace] table: tab, line feed, vertical tab, form feed,
    carriage return, space. *)
Definition asciiSpace (c : ascii) : bool :=
  ((9 <=? byte c) && (byte c <=? 13)) || (byte c =? 32).

(** First loop of [strings.TrimSpace]: skip ASCII space from the left; the
    scan stops at the first byte that is not ASCII space (a byte
    [>= RuneSelf] is not in the table). *)
Fixpoint trimLeft (s : string) : string :=
  match s with
  | EmptyString => EmptyString
  | String c s' => if asciiSpace c then trimLeft s' else s
  end.

(** Second loop: drop ASCII space from the right. *)
Fixpoint trimRight (s : string) : string :=
  match s with
  | EmptyString => EmptyString
  | String c s' =>
      match trimRight s' with
      | EmptyString => if asciiSpace c then EmptyString else String c EmptyString
      | r => String c r
      end
  end.

Fixpoint lastByte (s : string) : option ascii :=
  match s with
  | EmptyString => None
  | String c EmptyString => Some c
  | String _ s' => lastByte s'
  end.

(** [strings.TrimSpace(s)]: the ASCII fast path, handing over to the
    Unicode functions as soon as either scan meets a non-ASCII byte. *)
Definition TrimSpace `{External} (s : string) : string :=
  match trimLeft s with
  | EmptyString => EmptyString
  | String c _ as t =>
      if RuneSelf <=? byte c then TrimFunc_IsSpace t
      else
        let r := trimRight t in
        match lastByte r with
        | Some d => if RuneSelf <=? byte d then TrimRightFunc_IsSpace r else r
        | None => r
        end
  end.

Fixpoint isASCII (s : string) : bool :=
  match s with
  | EmptyString => true
  | String c s' => (byte c <? RuneSelf) && isASCII s'
  end.

Definition isUpper (c : ascii) : bool := (65 <=? byte c) && (byte c <=? 90).

Fixpoint hasUpper (s : string) : bool :=
  match s with
  | EmptyString => false
  | String c s' => isUpper c || hasUpper s'
  end.

(** [c += 'a' - 'A'] on the bytes ['A'..'Z']. *)
Definition lowerByte (c : ascii) : ascii :=
  if isUpper c then ascii_of_N (N_of_ascii c + 32) else c.

Fixpoint mapBytes (f : ascii -> ascii) (s : string) : string :=
  match s with
  | EmptyString => EmptyString
  | String c s' => String (f c) (mapBytes f s')
  end.

(** [strings.ToLower(s)]: ASCII-only strings are lowered byte by byte (and
    returned as they are when they hold no upper-case letter); any other
    string goes through [strings.Map(unicode.ToLower, s)]. *)
Definition ToLower `{External} (s : string) : string :=
  if isASCII s then
    if hasUpper s then mapBytes lowerByte s else s
  else Map_ToLower s.

End GoStrings.

(** ** Go's [time] package *)

Module GoTime.

(** A [time.Duration] is a signed 64-bit count of nanoseconds. *)
Definition Nanosecond : Z := 1.
Definition Second : Z := 1000000000 * Nanosecond.
Definition Minute : Z := 60 * Second.
Definition Hour : Z := 60 * Minute.
Definition minDuration : Z := - 2 ^ 63.
Definition maxDuration : Z := 2 ^ 63 - 1.

(** A [time.Time] is an instant, counted here in nanoseconds from the zero
    [Time]; the zero value of a [time.Time] field is instant [0]. *)
Definition Time : Type := Z.
Definition zeroTime : Time := 0.

(** [t.Sub(u)]: the difference, clamped to the range of a [Duration]
    ([subMono] clamps the monotonic readings the same way). *)
Definition Sub (t u : Time) : Z :=
  if t - u <? minDuration then minDuration
  else if maxDuration <? t - u then maxDuration
  else t - u.

(** [time.Since(t)], given what the clock reads. *)
Definition Since (now t : Time) : Z := Sub now t.

End GoTime.

(** ** Data *)

(** Go's [error] values the loop returns or receives: [ctx.Err()] of a
    cancelled context, and errors that carry a message. *)
Inductive error : Type :=
| context_Canceled
| errorString (msg : string).

(** [discord.User]: identifier and what [Tag()] prints. *)
Record User := { User_ID : Z; User_Tag : string }.

(** [discord.Member], as far as the parser reads it. *)
Record Member := { RoleIDs : list Z }.

(** [discord.Channel], as far as [trySubscribe] reads it. *)
Record Channel := { Channel_ID : Z; Channel_GuildID : Z }.

(** [discord.Message]. *)
Record Message := {
  ID : Z;
  ChannelID : Z;
  GuildID : Z;
  Author : User;
  Content : string
}.

(** [gateway.MessageCreateEvent]: the message and the optional member
    ([nil] outside a guild). *)
Record MessageCreateEvent := {
  Message_ : Message;
  Member_ : option Member
}.

(** [gateway.ReadyEvent]. *)
Record ReadyEvent := { Ready_User : User }.

(** [botSettings] of settings.go. *)
Record botSettings := {
  TargetChannelID : Z;
  AllowedRoleIDs : list Z;
  MinAnnounceTimeGap : Z
}.

(** The package variable [settings]. *)
Definition settings : botSettings := {|
  TargetChannelID := 710342070342254613;
  AllowedRoleIDs := [808121046028779602];
  MinAnnounceTimeGap := 4 * GoTime.Hour
|}.

(** [botState]: the embedded settings and the three fields of the loop. *)
Record botState := {
  botSettings_ : botSettings;
  SelfID : Z;
  TargetGuildID : Z;
  LastAnnouncedTime : GoTime.Time
}.

Definition with_SelfID (b : botState) (v : Z) : botState :=
  {| botSettings_ := botSettings_ b; SelfID := v;
     TargetGuildID := TargetGuildID b; LastAnnouncedTime := LastAnnouncedTime b |}.

Definition with_TargetGuildID (b : botState) (v : Z) : botState :=
  {| botSettings_ := botSettings_ b; SelfID := SelfID b;
     TargetGuildID := v; LastAnnouncedTime := LastAnnouncedTime b |}.

Definition with_LastAnnouncedTime (b : botState) (v : GoTime.Time) : botState :=
  {| botSettings_ := botSettings_ b; SelfID := SelfID b;
     TargetGuildID := TargetGuildID b; LastAnnouncedTime := v |}.

(** [parsedCommand]. *)
Record parsedCommand := { Command : string; Body : string }.

(** The case a [select] of the loop takes. *)
Inductive selected : Type :=
| ctx_Done
| startupTimeout
| readyCh (ev : ReadyEvent)
| readySupplementalCh
| guildCh
| msgCh (ev : MessageCreateEvent).

(** ** The interaction: what the loop received, called and logged *)

Inductive level : Type := LevelDebug | LevelInfo | LevelWarn | LevelError.

Inductive attr : Type :=
| AErr (e : error)
| AID (id : Z)
| AStr (s : string).

Inductive Entry : Type :=
| Recv (c : selected)
| Slog (l : level) (msg : string) (attrs : list (string * attr))
| CallChannel (id : Z)
| CallSubscribe (guild : Z)
| CallAddSyncHandler
| CallSendMessage (channel : Z) (content : string)
| CallEditMessage (channel message : Z) (content : string)
| CallSendMessageReply (channel : Z) (content : string) (reference : Z)
| CallLoad (key : Z)
| CallStore (key value : Z).

(** What the world outside the loop answers, given the interaction so far.
    [MessageMentions] is ningen's mention resolution on the offline
    (cache-only) session; [Load_err] and [Store_err] say whether the
    storage engine fails the call, and [Store_failed] what a store that
    failed has left in the map (nothing is known of it: the old contents,
    the new value, or anything else); [time_Now] is the clock. *)
Record Env := {
  Cabinet_Channel : list Entry -> Z -> Channel + error;
  SendMessage : list Entry -> Z -> string -> Message + error;
  EditMessage : list Entry -> Z -> Z -> string -> Message + error;
  SendMessageReply : list Entry -> Z -> string -> Z -> Message + error;
  MessageMentions : list Entry -> Message -> Z;
  Load_err : list Entry -> Z -> option error;
  Store_err : list Entry -> Z -> Z -> option error;
  Store_failed : list Entry -> Z -> Z -> gmap Z Z -> gmap Z Z;
  time_Now : list Entry -> GoTime.Time
}.

(** ningen's flag [MessageMentions] ([1 << iota], first of its block). *)
Definition ningen_MessageMentions : Z := 1.

(** ** The state of the loop and its monad *)

Record state := {
  bot : botState;
  lastSentAuthors : gmap Z Z;
  history : list Entry
}.

Definition M (A : Type) : Type := state -> A * state.

#[export] Instance M_ret : MRet M := fun A (a : A) s => (a, s).
#[export] Instance M_bind : MBind M :=
  fun A B (k : A -> M B) (m : M A) s => let '(a, s') := m s in k a s'.

Definition getBot : M botState := fun s => (bot s, s).

Definition setBot (b : botState) : M unit := fun s =>
  (tt, {| bot := b; lastSentAuthors := lastSentAuthors s; history := history s |}).

(** Append one entry to the interaction. *)
Definition emit (e : Entry) : M unit := fun s =>
  (tt, {| bot := bot s; lastSentAuthors := lastSentAuthors s;
          history := history s ++ [e] |}).

(** Read an answer of the environment at the current interaction. *)
Definition answer {A : Type} (f : list Entry -> A) : M A := fun s => (f (history s), s).

Definition slog (l : level) (msg : string) (attrs : list (string * attr)) : M unit :=
  emit (Slog l msg attrs).

Definition modifyBot (f : botState -> botState) : M unit :=
  b ← getBot; setBot (f b).

(** ** The program *)

Section Program.

Context `{External} (env : Env).

(** *** Calls on the session: the answer is the environment's, the call
        is recorded. *)

Definition session_Cabinet_Channel (id : Z) : M (Channel + error) :=
  r ← answer (fun h => Cabinet_Channel env h id);
  emit (CallChannel id);;
  mret r.

Definition session_MemberState_Subscribe (guild : Z) : M unit :=
  emit (CallSubscribe guild).

Definition session_AddSyncHandler_msgCh : M unit :=
  emit CallAddSyncHandler.

Definition session_SendMessage (channel : Z) (content : string) : M (Message + error) :=
  r ← answer (fun h => SendMessage env h channel content);
  emit (CallSendMessage channel content);;
  mret r.

Definition session_EditMessage (channel message : Z) (content : string)
  : M (Message + error) :=
  r ← answer (fun h => EditMessage env h channel message content);
  emit (CallEditMessage channel message content);;
  mret r.

Definition session_SendMessageReply (channel : Z) (content : string) (reference : Z)
  : M (Message + error) :=
  r ← answer (fun h => SendMessageReply env h channel content reference);
  emit (CallSendMessageReply channel content reference);;
  mret r.

(** *** [persist.Map[discord.UserID, discord.MessageID]]

    The map comes from the [libdb.so/persist] dependency; the environment
    decides whether a call fails, the contents are kept in the state. *)

(** Modelled from the spec: [Load] of the last-announcement store (section
    4.2, read-your-writes).  A load that does not fail returns the value
    last stored under the key and whether there is one; a load that fails
    returns the error. *)
Definition lastSentAuthors_Load (k : Z) : M (Z * bool * option error) := fun s =>
  let s' := {| bot := bot s; lastSentAuthors := lastSentAuthors s;
               history := history s ++ [CallLoad k] |} in
  match Load_err env (history s) k with
  | Some e => ((0, false, Some e), s')
  | None =>
      match lastSentAuthors s !! k with
      | Some v => ((v, true, None), s')
      | None => ((0, false, None), s')
      end
  end.

(** Modelled from the spec: [Store] of the last-announcement store (section
    4.2).  A store that does not fail overwrites the value of the key.  A
    store that fails returns the error; the contract does not say what it
    leaves in the map, so that is the environment's to decide. *)
Definition lastSentAuthors_Store (k v : Z) : M (option error) := fun s =>
  match Store_err env (history s) k v with
  | Some e =>
      (Some e, {| bot := bot s;
                  lastSentAuthors := Store_failed env (history s) k v (lastSentAuthors s);
                  history := history s ++ [CallStore k v] |})
  | None =>
      (None, {| bot := bot s; lastSentAuthors := <[k := v]> (lastSentAuthors s);
                history := history s ++ [CallStore k v] |})
  end.

(** *** [sendReply] and [replyInternalError] *)

Definition sendReply (msg : MessageCreateEvent) (content : string) : M unit :=
  let content := Mention (User_ID (Author (Message_ msg))) +:+ ", " +:+ content in
  r ← session_SendMessageReply (ChannelID (Message_ msg)) content (ID (Message_ msg));
  match r with
  | inr err =>
      slog LevelError "Bot has failed to deliver a reply."
        [("channel_id", AID (ChannelID (Message_ msg)));
         ("author_id", AID (User_ID (Author (Message_ msg))));
         ("err", AErr err)]
  | inl _ => mret tt
  end.

Definition internalErrorText : string :=
  "this bot has encountered an internal error. This error has been logged.".

Definition replyInternalError (msg : MessageCreateEvent) : M unit :=
  sendReply msg internalErrorText.

(** *** [parseCommand]

    [dsession] is the session the parser reads, given by the interaction it
    has seen.  The result is the pair the Go function returns. *)

Definition hasAllowedRole (bot : botState) (member : Member) : bool :=
  existsb (fun id => existsb (fun allowed => allowed =? id)
                       (AllowedRoleIDs (botSettings_ bot)))
          (RoleIDs member).

Definition parseCommand (dsession : list Entry) (bot : botState) (msg : MessageCreateEvent)
  : option parsedCommand * option error :=
  (* The message must come from the same guild. *)
  match Member_ msg with
  | None => (None, None)
  | Some member =>
  if negb (GuildID (Message_ msg) =? TargetGuildID bot) then (None, None) else
  (* The message must explicitly mention it. *)
  if Z.land (MessageMentions env dsession (Message_ msg)) ningen_MessageMentions =? 0
  then (None, None) else
  (* The message must come from a user with the right role. *)
  if negb (hasAllowedRole bot member) then (None, None) else
  (* A header line and the rest. *)
  let '(header, body, ok) := GoStrings.Cut (Content (Message_ msg)) GoStrings.LF in
  if negb ok then (None, None) else
  (* The header must begin with its mention. *)
  if negb (GoStrings.HasPrefix header (Mention (SelfID bot))) then (None, None) else
  let command := header in
  let command := GoStrings.TrimPrefix command (Mention (SelfID bot)) in
  let command := GoStrings.TrimSpace command in
  let command := GoStrings.ToLower command in
  if String.eqb command "" then (None, None) else
  if String.eqb body "" then (None, None) else
  (Some {| Command := command; Body := body |}, None)
  end.

(** *** [trySubscribe] *)

Definition trySubscribe : M bool :=
  b ← getBot;
  if IsValid (TargetGuildID b) then mret true
  else
    r ← session_Cabinet_Channel (TargetChannelID settings);
    match r with
    | inr err =>
        slog LevelInfo "The bot tried to get the target channel, but it failed."
          [("err", AErr err)];;
        mret false
    | inl ch =>
        modifyBot (fun b => with_TargetGuildID b (Channel_GuildID ch));;
        session_MemberState_Subscribe (Channel_GuildID ch);;
        session_AddSyncHandler_msgCh;;
        slog LevelInfo
          "Bot has subscribed to the target channel's guild. It is now ready to serve."
          [("guild_id", AID (Channel_GuildID ch));
           ("channel_id", AID (TargetChannelID (botSettings_ b)))];;
        mret true
    end.

(** *** The two commands *)

(** The test of line 201, [time.Since(bot.LastAnnouncedTime) <
    bot.MinAnnounceTimeGap], at a clock reading. *)
Definition rateLimited (b : botState) (now : GoTime.Time) : bool :=
  GoTime.Since now (LastAnnouncedTime b) <? MinAnnounceTimeGap (botSettings_ b).

Definition waitText : string := "please wait before sending another announcement.".
Definition sentText : string := "the announcement has been sent.".
Definition notFoundText : string :=
  "this bot could not find the last announcement you sent.".

Definition announce (ev : MessageCreateEvent) (command : parsedCommand) : M unit :=
  b ← getBot;
  now ← answer (time_Now env);
  if rateLimited b now then sendReply ev waitText
  else
    r ← session_SendMessage (TargetChannelID (botSettings_ b)) (Body command);
    match r with
    | inr err =>
        slog LevelError "Bot has failed to send the announcement message."
          [("channel_id", AID (TargetChannelID (botSettings_ b))); ("err", AErr err)];;
        replyInternalError ev
    | inl target =>
        now' ← answer (time_Now env);
        modifyBot (fun b => with_LastAnnouncedTime b now');;
        sendReply ev sentText;;
        err ← lastSentAuthors_Store (User_ID (Author (Message_ ev))) (ID target);
        match err with
        | Some e =>
            slog LevelWarn "Bot has failed to store the last message sent by the author."
              [("author_id", AID (User_ID (Author (Message_ ev)))); ("err", AErr e)]
        | None => mret tt
        end
    end.

Definition edit (ev : MessageCreateEvent) (command : parsedCommand) : M unit :=
  b ← getBot;
  '(lastSent, ok, err) ← lastSentAuthors_Load (User_ID (Author (Message_ ev)));
  match err with
  | Some e =>
      slog LevelError "Bots has failed to look up the last message sent by the author."
        [("author_id", AID (User_ID (Author (Message_ ev)))); ("err", AErr e)];;
      replyInternalError ev
  | None =>
      if negb ok then sendReply ev notFoundText
      else
        r ← session_EditMessage (TargetChannelID (botSettings_ b)) lastSent (Body command);
        match r with
        | inr e =>
            slog LevelError "Bot has failed to edit the last announcement message."
              [("channel_id", AID (TargetChannelID (botSettings_ b)));
               ("message_id", AID lastSent); ("err", AErr e)];;
            replyInternalError ev
        | inl _ => mret tt
        end
  end.

(** The [switch command.Command]; it has no [default]. *)
Definition dispatch (ev : MessageCreateEvent) (command : parsedCommand) : M unit :=
  if String.eqb (Command command) "announce" then announce ev command
  else if String.eqb (Command command) "edit" then edit ev command
  else mret tt.

(** *** The loop *)

Definition parseErrorLog : string :=
  "Bot was unable to parse the command due to an internal error.".

(** [case ev := <-msgCh]. *)
Definition onMessage (ev : MessageCreateEvent) : M unit :=
  b ← getBot;
  dsession ← answer (fun h => h);
  let '(command, err) := parseCommand dsession b ev in
  match err with
  | Some e =>
      slog LevelDebug parseErrorLog
        [("channel_id", AID (ChannelID (Message_ ev))); ("err", AErr e)]
  | None =>
      match command with
      | None => mret tt
      | Some command =>
          slog LevelInfo "This bot has received a valid command."
            [("author.id", AID (User_ID (Author (Message_ ev))));
             ("author.tag", AStr (User_Tag (Author (Message_ ev))));
             ("command", AStr (Command command));
             ("body", AStr (Body command))];;
          dispatch ev command
      end
  end.

Definition startupError : error := errorString "bot has failed to start up in time".

(** One turn of [for { select { ... } }] on the case taken: [Some err] when
    the turn returns [err] from the loop, [None] when the loop goes on. *)
Definition turn (c : selected) : M (option error) :=
  emit (Recv c);;
  match c with
  | ctx_Done => mret (Some context_Canceled)
  | startupTimeout => mret (Some startupError)
  | readyCh ev =>
      modifyBot (fun b => with_SelfID b (User_ID (Ready_User ev)));;
      slog LevelInfo "This bot is online. It is preparing to serve."
        [("bot_id", AID (User_ID (Ready_User ev)));
         ("bot_name", AStr (User_Tag (Ready_User ev)))];;
      _ ← trySubscribe;
      mret None
  | readySupplementalCh => _ ← trySubscribe; mret None
  | guildCh => _ ← trySubscribe; mret None
  | msgCh ev => onMessage ev;; mret None
  end.

(** The loop on the cases its successive [select]s take: it stops at the
    first turn that returns. *)
Fixpoint loop (cs : list selected) : M (option error) :=
  match cs with
  | [] => mret None
  | c :: cs' =>
      r ← turn c;
      match r with
      | Some err => mret (Some err)
      | None => loop cs'
      end
  end.




End Program.

(** ** What the specification says, for comparison with the program *)

(** The rate limiter of the specification:
    [Allow(now, lastAnnounceTime, minGap)] is true iff
    [now - lastAnnounceTime >= minGap]. *)
Definition Allow (now lastAnnounceTime minGap : Z) : bool :=
  bool_decide (now - lastAnnounceTime >= minGap).

(** An authorized, self-mentioning message: sent by a member, in the target
    guild, resolved as mentioning the bot, by an author holding an allowed
    role. *)
Definition authorized `{External} (env : Env) (dsession : list Entry)
    (bot : botState) (msg : MessageCreateEvent) : Prop :=
  ∃ member,
    Member_ msg = Some member
    ∧ GuildID (Message_ msg) = TargetGuildID bot
    ∧ Z.land (MessageMentions env dsession (Message_ msg)) ningen_MessageMentions ≠ 0
    ∧ ∃ r, r ∈ RoleIDs member ∧ r ∈ AllowedRoleIDs (botSettings_ bot).

(** The parse the specification describes for such a message: nothing
    without a newline; otherwise the header with the leading self-mention
    stripped, trimmed and lowered, and the text after the first newline as
    it is; nothing when either is empty. *)
Definition claimedParse `{External} (bot : botState) (msg : MessageCreateEvent)
  : option parsedCommand :=
  let '(header, body, found) := GoStrings.Cut (Content (Message_ msg)) GoStrings.LF in
  if negb found then None
  else
    let command :=
      GoStrings.ToLower
        (GoStrings.TrimSpace (GoStrings.TrimPrefix header (Mention (SelfID bot)))) in
    if String.eqb command "" || String.eqb body "" then None
    else Some {| Command := command; Body := body |}.

(** ** Concrete libraries, environments and messages *)

Module Sample.

(** The library functions on ASCII text: a snowflake is valid unless it is
    [0] or all ones, a mention is the decimal identifier between [<@] and
    [>]; the Unicode paths are never reached on ASCII text. *)
#[export] Instance arikawa : External := {|
  IsValid s := negb ((s =? 0) || (s =? 2 ^ 64 - 1));
  Mention id := "<@" +:+ NilZero.string_of_uint (N.to_uint (Z.to_N id)) +:+ ">";
  TrimFunc_IsSpace s := s;
  TrimRightFunc_IsSpace s := s;
  Map_ToLower s := s
|}.

Definition reply (id : Z) : Message :=
  {| ID := id; ChannelID := 0; GuildID := 0;
     Author := {| User_ID := 42; User_Tag := "bot#0" |}; Content := "" |}.

(** An environment in which every call succeeds: the target channel is in
    guild 77, a sent message gets the length of the interaction as its
    identifier, every message is resolved as mentioning the bot, and the
    clock reads [clock n] after [n] entries of the interaction. *)
Definition calm (clock : nat → GoTime.Time) : Env := {|
  Cabinet_Channel _ id := inl {| Channel_ID := id; Channel_GuildID := 77 |};
  SendMessage h _ _ := inl (reply (Z.of_nat (length h)));
  EditMessage _ _ m _ := inl (reply m);
  SendMessageReply h _ _ _ := inl (reply (Z.of_nat (length h)));
  MessageMentions _ _ := 1;
  Load_err _ _ := None;
  Store_err _ _ _ := None;
  Store_failed _ _ _ m := m;
  time_Now h := clock (length h)
|}.

(** Clocks that advance one second, or one minute, per entry. *)
Definition seconds (epoch : GoTime.Time) (n : nat) : GoTime.Time :=
  epoch + Z.of_nat n * GoTime.Second.
Definition minutes (epoch : GoTime.Time) (n : nat) : GoTime.Time :=
  epoch + Z.of_nat n * GoTime.Minute.

(** An environment in which every fallible call fails. *)
Definition broken : Env := {|
  Cabinet_Channel _ _ := inr (errorString "unknown channel");
  SendMessage _ _ _ := inr (errorString "send failed");
  EditMessage _ _ _ _ := inr (errorString "edit failed");
  SendMessageReply _ _ _ _ := inr (errorString "reply failed");
  MessageMentions _ _ := 0;
  Load_err _ _ := Some (errorString "load failed");
  Store_err _ _ _ := Some (errorString "store failed");
  Store_failed _ k v m := <[k := v]> m;
  time_Now h := Z.of_nat (length h) * GoTime.Second
|}.

Definition alice : User := {| User_ID := 5; User_Tag := "alice#1" |}.

(** A message of [alice], a member with the allowed role, in guild 77. *)
Definition fromAlice (content : string) : MessageCreateEvent :=
  {| Message_ := {| ID := 100; ChannelID := 9; GuildID := 77;
                    Author := alice; Content := content |};
     Member_ := Some {| RoleIDs := [1; 808121046028779602] |} |}.

(** The bot once it is online as user 42 and subscribed to guild 77. *)
Definition ready (last : GoTime.Time) (store : gmap Z Z) (h : list Entry) : state :=
  {| bot := {| botSettings_ := settings; SelfID := 42; TargetGuildID := 77;
               LastAnnouncedTime := last |};
     lastSentAuthors := store;
     history := h |}.

Definition online : selected :=
  readyCh {| Ready_User := {| User_ID := 42; User_Tag := "bot#0" |} |}.

(** A clock reading of our days, in nanoseconds from the zero [Time]: more
    than a [Duration] can hold. *)
Definition epoch : GoTime.Time := 63839000000 * GoTime.Second.

Definition world : Env := calm (seconds epoch).
Definition slow : Env := calm (minutes epoch).

(** The subscribed bot before any announce, with an empty map. *)
Definition fresh : state := ready GoTime.zeroTime ∅ [].

(** The same with an announcement of [alice] on record. *)
Definition recorded : state := ready GoTime.zeroTime {[5 := 8]} [].

(** The subscribed bot [n] entries into an interaction, its last announce
    made at [last]. *)
Definition later (last : GoTime.Time) (n : nat) : state :=
  ready last ∅ (repeat (Recv guildCh) n).

Definition announceEv : MessageCreateEvent :=
  fromAlice ("<@42> announce" +:+ GoStrings.LF +:+ "hello").
Definition announceCmd : parsedCommand := {| Command := "announce"; Body := "hello" |}.

Definition editEv : MessageCreateEvent :=
  fromAlice ("<@42> edit" +:+ GoStrings.LF +:+ "fixed").
Definition editCmd : parsedCommand := {| Command := "edit"; Body := "fixed" |}.

Definition pingEv : MessageCreateEvent :=
  fromAlice ("<@42> ping" +:+ GoStrings.LF +:+ "anyone?").
Definition pingCmd : parsedCommand := {| Command := "ping"; Body := "anyone?" |}.

(** A command word without the mention in front; the mention is in the
    body. *)
Definition trailingEv : MessageCreateEvent :=
  fromAlice ("announce" +:+ GoStrings.LF +:+ "hello <@42>").

(** The same author writing to the bot outside a guild. *)
Definition directEv : MessageCreateEvent :=
  {| Message_ := {| ID := 101; ChannelID := 10; GuildID := 0;
                    Author := alice; Content := Content (Message_ announceEv) |};
     Member_ := None |}.

Definition shoutedEv : MessageCreateEvent :=
  fromAlice ("<@42> ANNOUNCE" +:+ GoStrings.LF +:+ "X").
Definition spokenEv : MessageCreateEvent :=
  fromAlice ("<@42> announce" +:+ GoStrings.LF +:+ "X").

End Sample.

(** ** Describing outcomes *)

(** The state after more of the interaction, bot and map as they were. *)
Definition extend (s : state) (es : list Entry) : state :=
  {| bot := bot s; lastSentAuthors := lastSentAuthors s; history := history s ++ es |}.

(** The line the loop logs for a command it is about to dispatch. *)
Definition validCommandEntry (ev : MessageCreateEvent) (command : parsedCommand) : Entry :=
  Slog LevelInfo "This bot has received a valid command."
    [("author.id", AID (User_ID (Author (Message_ ev))));
     ("author.tag", AStr (User_Tag (Author (Message_ ev))));
     ("command", AStr (Command command));
     ("body", AStr (Body command))].

(** What [sendReply] adds to the interaction [h]: the reply, and a log line
    when the reply could not be delivered. *)
Definition replyEntries `{External} (env : Env) (h : list Entry)
    (msg : MessageCreateEvent) (text : string) : list Entry :=
  let content := Mention (User_ID (Author (Message_ msg))) +:+ ", " +:+ text in
  CallSendMessageReply (ChannelID (Message_ msg)) content (ID (Message_ msg))
  :: match SendMessageReply env h (ChannelID (Message_ msg)) content (ID (Message_ msg)) with
     | inr err =>
         [Slog LevelError "Bot has failed to deliver a reply."
            [("channel_id", AID (ChannelID (Message_ msg)));
             ("author_id", AID (User_ID (Author (Message_ msg))));
             ("err", AErr err)]]
     | inl _ => []
     end.

(** Entries of a subscription attempt: the channel lookup, the guild
    subscription and the handler registration of [trySubscribe]. *)
Definition isSubscription (e : Entry) : bool :=
  match e with
  | CallChannel _ | CallSubscribe _ | CallAddSyncHandler => true
  | _ => false
  end.

(** The line of the loop's branch for a parse error. *)
Definition isParseErrorLog (e : Entry) : bool :=
  match e with
  | Slog LevelDebug msg _ => String.eqb msg parseErrorLog
  | _ => false
  end.

(** The lines the two commands log when a call fails. *)
Definition sendFailedEntry (b : botState) (err : error) : Entry :=
  Slog LevelError "Bot has failed to send the announcement message."
    [("channel_id", AID (TargetChannelID (botSettings_ b))); ("err", AErr err)].

Definition storeFailedEntry (ev : MessageCreateEvent) (err : error) : Entry :=
  Slog LevelWarn "Bot has failed to store the last message sent by the author."
    [("author_id", AID (User_ID (Author (Message_ ev)))); ("err", AErr err)].

Definition loadFailedEntry (ev : MessageCreateEvent) (err : error) : Entry :=
  Slog LevelError "Bots has failed to look up the last message sent by the author."
    [("author_id", AID (User_ID (Author (Message_ ev)))); ("err", AErr err)].

Definition editFailedEntry (b : botState) (lastSent : Z) (err : error) : Entry :=
  Slog LevelError "Bot has failed to edit the last announcement message."
    [("channel_id", AID (TargetChannelID (botSettings_ b)));
     ("message_id", AID lastSent); ("err", AErr err)].

(** [grows P Q s s'] says that [s'] continues [s]: the interaction was
    extended by entries that satisfy [P], and the bot changed within [Q].
    The contents of the map are not constrained.  [keeps P Q m] says that
    the computation [m] continues every state in that way. *)
Definition grows (P : Entry → Prop) (Q : botState → botState → Prop) (s s' : state) : Prop :=
  Q (bot s) (bot s') ∧ ∃ added, history s' = history s ++ added ∧ Forall P added.

Definition keeps (P : Entry → Prop) (Q : botState → botState → Prop) {A : Type}
    (m : M A) : Prop :=
  ∀ s, grows P Q s (m s).2.

(** ** Descriptions for the properties beyond the claims *)

(** The cases whose turn returns from the loop, and what each returns. *)
Definition isExit (c : selected) : bool :=
  match c with
  | ctx_Done | startupTimeout => true
  | _ => false
  end.

Definition exitOf (c : selected) : option error :=
  match c with
  | ctx_Done => Some context_Canceled
  | startupTimeout => Some startupError
  | _ => None
  end.

(** What the loop returns on the cases [cs], read off the cases alone. *)
Definition firstExit (cs : list selected) : option error :=
  match find isExit cs with
  | Some c => exitOf c
  | None => None
  end.

(** The settings are kept. *)
Definition sameSettings (b b' : botState) : Prop := botSettings_ b' = botSettings_ b.

(** [settled σ P m]: from every state whose settings are [σ], the computation
    [m] keeps the settings and extends the interaction by entries that
    satisfy [P]. *)
Definition settled (σ : botSettings) (P : Entry → Prop) {A : Type} (m : M A) : Prop :=
  ∀ s, botSettings_ (bot s) = σ → grows P sameSettings s (m s).2.

(** A message sent or edited goes to [channel]. *)
Definition targets (channel : Z) (e : Entry) : Prop :=
  match e with
  | CallSendMessage ch _ | CallEditMessage ch _ _ => ch = channel
  | _ => True
  end.

(** An entry is about the message [ev]: a reply goes to its channel, refers
    to it and begins with the mention of its author and a comma; an access
    to the map is under its author. *)
Definition concerns `{External} (ev : MessageCreateEvent) (e : Entry) : Prop :=
  match e with
  | CallSendMessageReply c t r =>
      c = ChannelID (Message_ ev) ∧ r = ID (Message_ ev)
      ∧ ∃ text, t = Mention (User_ID (Author (Message_ ev))) +:+ ", " +:+ text
  | CallLoad k | CallStore k _ => k = User_ID (Author (Message_ ev))
  | _ => True
  end.

(** Entries that write to Discord or touch the map. *)
Definition isOutbound (e : Entry) : bool :=
  match e with
  | CallSendMessage _ _ | CallEditMessage _ _ _ | CallSendMessageReply _ _ _
  | CallLoad _ | CallStore _ _ => true
  | _ => false
  end.

(** The number of replies among some entries. *)
Definition isReply (e : Entry) : bool :=
  match e with
  | CallSendMessageReply _ _ _ => true
  | _ => false
  end.

Definition countReplies (es : list Entry) : nat := length (filter (λ e, isReply e = true) es).

(** The number of handler registrations among some entries. *)
Definition isHandler (e : Entry) : bool :=
  match e with
  | CallAddSyncHandler => true
  | _ => false
  end.

Definition countHandlers (es : list Entry) : nat :=
  length (filter (λ e, isHandler e = true) es).



(** The lines [trySubscribe] logs. *)
Definition channelFailedEntry (err : error) : Entry :=
  Slog LevelInfo "The bot tried to get the target channel, but it failed."
    [("err", AErr err)].

Definition subscribedEntry (b : botState) (ch : Channel) : Entry :=
  Slog LevelInfo
    "Bot has subscribed to the target channel's guild. It is now ready to serve."
    [("guild_id", AID (Channel_GuildID ch));
     ("channel_id", AID (TargetChannelID (botSettings_ b)))].

(** No byte of the string is a line feed. *)
Fixpoint noLF (s : string) : bool :=
  match s with
  | EmptyString => true
  | String c s' => negb (Ascii.eqb c "010") && noLF s'
  end.

(** The first byte of a string. *)
Definition firstByte (s : string) : option ascii :=
  match s with
  | EmptyString => None
  | String c _ => Some c
  end.

(** Messages and states for the properties beyond the claims. *)
Module Scenes.

(** The bot online as user 42, not yet subscribed. *)
Definition unsubscribed : state :=
  {| bot := {| botSettings_ := settings; SelfID := 42; TargetGuildID := 0;
               LastAnnouncedTime := GoTime.zeroTime |};
     lastSentAuthors := ∅;
     history := [] |}.

Definition mixedEv : MessageCreateEvent :=
  Sample.fromAlice ("<@42>  AnNoUnCe " +:+ GoStrings.LF +:+ "line one"
                    +:+ GoStrings.LF +:+ "line two").

End Scenes.

(** * Properties *)

Ltac unfold_M :=
  unfold session_Cabinet_Channel, session_MemberState_Subscribe,
    session_AddSyncHandler_msgCh, session_SendMessage, session_EditMessage,
    session_SendMessageReply, lastSentAuthors_Load, lastSentAuthors_Store,
    slog, emit, answer, getBot, setBot, modifyBot, mbind, M_bind, mret, M_ret in *.

Lemma extend_extend (s : state) (es fs : list Entry) :
  extend (extend s es) fs = extend s (es ++ fs).
Proof. unfold extend; cbn. by rewrite <- app_assoc. Qed.

(** ** Running the computations *)

Section Running.

Context `{External} (env : Env).

Lemma hasAllowedRole_spec (b : botState) (member : Member) :
  hasAllowedRole b member = true
  ↔ ∃ r, r ∈ RoleIDs member ∧ r ∈ AllowedRoleIDs (botSettings_ b).
Proof.
  unfold hasAllowedRole. rewrite existsb_exists. split.
  - intros (r & Hr & Ha). apply existsb_exists in Ha as (a & Ha & Heq).
    apply Z.eqb_eq in Heq. subst a. exists r.
    split; apply list_elem_of_In; assumption.
  - intros (r & Hr & Ha). exists r. split; [apply list_elem_of_In; assumption|].
    apply existsb_exists. exists r. split; [apply list_elem_of_In; assumption|].
    apply Z.eqb_refl.
Qed.

Lemma parseCommand_no_error (dsession : list Entry) (b : botState) (msg : MessageCreateEvent) :
  (parseCommand env dsession b msg).2 = None.
Proof.
  unfold parseCommand.
  destruct (Member_ msg); [|reflexivity].
  destruct (GoStrings.Cut _ _) as [[header body] ok].
  repeat match goal with |- context [if ?c then _ else _] => destruct c end;
    reflexivity.
Qed.

Lemma sendReply_run (msg : MessageCreateEvent) (text : string) (s : state) :
  sendReply env msg text s = (tt, extend s (replyEntries env (history s) msg text)).
Proof.
  unfold sendReply, replyEntries. unfold_M. cbn.
  destruct (SendMessageReply env _ _ _ _); cbn; unfold extend; cbn;
    by rewrite <- ?app_assoc.
Qed.

Lemma onMessage_run (ev : MessageCreateEvent) (s : state) :
  onMessage env ev s =
  match (parseCommand env (history s) (bot s) ev).1 with
  | None => (tt, s)
  | Some command => dispatch env ev command (extend s [validCommandEntry ev command])
  end.
Proof.
  unfold onMessage. unfold_M. cbn.
  pose proof (parseCommand_no_error (history s) (bot s) ev) as He.
  destruct (parseCommand env (history s) (bot s) ev) as [command err].
  cbn in He. subst err. destruct command; reflexivity.
Qed.

End Running.

(** ** Frames: what a computation leaves alone *)

Section Frames.

Context (P : Entry → Prop) (Q : botState → botState → Prop).
Hypothesis Q_refl : ∀ b, Q b b.
Hypothesis Q_trans : ∀ b1 b2 b3, Q b1 b2 → Q b2 b3 → Q b1 b3.

Lemma grows_refl (s : state) : grows P Q s s.
Proof. split; [apply Q_refl|]. exists []. by rewrite app_nil_r. Qed.

Lemma grows_trans (s1 s2 s3 : state) : grows P Q s1 s2 → grows P Q s2 s3 → grows P Q s1 s3.
Proof.
  intros [Hq1 (a1 & Hh1 & Hp1)] [Hq2 (a2 & Hh2 & Hp2)]. split; [eauto|].
  exists (a1 ++ a2). rewrite Hh2, Hh1, <- app_assoc. split; [done|].
  by apply Forall_app.
Qed.

Lemma keeps_ret {A : Type} (a : A) : keeps P Q (mret a).
Proof. intros s. apply grows_refl. Qed.

Lemma keeps_bind {A B : Type} (m : M A) (k : A → M B) :
  keeps P Q m → (∀ a, keeps P Q (k a)) → keeps P Q (m ≫= k).
Proof.
  intros Hm Hk s. unfold mbind, M_bind. specialize (Hm s).
  destruct (m s) as [a s1]. cbn in Hm.
  eapply grows_trans; [exact Hm|apply Hk].
Qed.

Lemma keeps_answer {A : Type} (f : list Entry → A) : keeps P Q (answer f).
Proof. intros s. apply grows_refl. Qed.

Lemma keeps_getBot : keeps P Q getBot.
Proof. intros s. apply grows_refl. Qed.

Lemma keeps_emit (e : Entry) : P e → keeps P Q (emit e).
Proof.
  intros He s. split; [apply Q_refl|]. exists [e]. split; [done|].
  by constructor.
Qed.

Lemma keeps_modifyBot (f : botState → botState) :
  (∀ b, Q b (f b)) → keeps P Q (modifyBot f).
Proof.
  intros Hf s. split; [apply Hf|]. exists []. cbn. by rewrite app_nil_r.
Qed.

Context `{External} (env : Env).

Lemma keeps_Load (k : Z) : P (CallLoad k) → keeps P Q (lastSentAuthors_Load env k).
Proof.
  intros Hp s. unfold lastSentAuthors_Load.
  split; [repeat case_match; apply Q_refl|].
  exists [CallLoad k]. split; [repeat case_match; done|]. by constructor.
Qed.

Lemma keeps_Store (k v : Z) : P (CallStore k v) → keeps P Q (lastSentAuthors_Store env k v).
Proof.
  intros Hp s. unfold lastSentAuthors_Store.
  split; [repeat case_match; apply Q_refl|].
  exists [CallStore k v]. split; [repeat case_match; done|]. by constructor.
Qed.

Lemma keeps_onMessage (ev : MessageCreateEvent) :
  (∀ command, P (validCommandEntry ev command)) →
  (∀ command, keeps P Q (dispatch env ev command)) →
  keeps P Q (onMessage env ev).
Proof.
  intros Hp Hd s. rewrite onMessage_run.
  destruct (parseCommand env (history s) (bot s) ev).1 as [command|];
    [|apply grows_refl].
  eapply grows_trans; [|apply Hd].
  split; [apply Q_refl|]. exists [validCommandEntry ev command].
  split; [done|]. constructor; [apply Hp|constructor].
Qed.

Lemma keeps_loop (cs : list selected) :
  (∀ c, keeps P Q (turn env c)) → keeps P Q (loop env cs).
Proof.
  intros Ht. induction cs as [|c cs IH]; intros s; [apply grows_refl|].
  cbn. unfold mbind, M_bind. specialize (Ht c s).
  destruct (turn env c s) as [[err|] s1]; cbn in *; [exact Ht|].
  eapply grows_trans; [exact Ht|apply IH].
Qed.

End Frames.

(** Break a computation into its calls, leaving what [P] and [Q] must
    hold of; the two facts about [Q] are taken from the context. *)
Ltac keeps_step :=
  first
    [ apply keeps_ret
    | apply keeps_answer
    | apply keeps_getBot
    | apply keeps_onMessage
    | apply keeps_modifyBot
    | apply keeps_Load
    | apply keeps_Store
    | apply keeps_emit
    | apply keeps_bind
    | match goal with
      | |- keeps _ _ (match ?x with _ => _ end) => destruct x
      end ];
  try assumption;
  try match goal with |- ∀ _, _ => intros ? end.

Ltac keeps_unfold :=
  unfold turn, dispatch, announce, edit, trySubscribe, sendReply,
    replyInternalError, session_Cabinet_Channel, session_MemberState_Subscribe,
    session_AddSyncHandler_msgCh, session_SendMessage, session_EditMessage,
    session_SendMessageReply, slog.

Ltac keeps_all := repeat (keeps_unfold; keeps_step).

(** ** The parser *)

Section Parser.

Context `{External} (env : Env).

Lemma parseCommand_rejects (dsession : list Entry) (b : botState)
    (msg : MessageCreateEvent) :
  Member_ msg = None
  ∨ GuildID (Message_ msg) ≠ TargetGuildID b
  ∨ Z.land (MessageMentions env dsession (Message_ msg)) ningen_MessageMentions = 0
  ∨ (∀ member r, Member_ msg = Some member → r ∈ RoleIDs member →
       r ∉ AllowedRoleIDs (botSettings_ b)) →
  parseCommand env dsession b msg = (None, None).
Proof.
  intros Hc. unfold parseCommand.
  destruct (Member_ msg) as [member|] eqn:Hm; [|reflexivity].
  destruct (GuildID (Message_ msg) =? TargetGuildID b) eqn:Hg; [|reflexivity].
  apply Z.eqb_eq in Hg. cbn.
  destruct (Z.land _ _ =? 0) eqn:Hf; [reflexivity|].
  apply Z.eqb_neq in Hf.
  destruct (hasAllowedRole b member) eqn:Hr; [|reflexivity].
  apply hasAllowedRole_spec in Hr as (r & Hr & Ha).
  destruct Hc as [Hc|[Hc|[Hc|Hc]]]; try done.
  exfalso. exact (Hc member r eq_refl Hr Ha).
Qed.

Lemma turn_msgCh (ev : MessageCreateEvent) (s : state) :
  turn env (msgCh ev) s =
  match (parseCommand env (history s ++ [Recv (msgCh ev)]) (bot s) ev).1 with
  | None => (None, extend s [Recv (msgCh ev)])
  | Some command =>
      (None, (dispatch env ev command
                (extend s [Recv (msgCh ev); validCommandEntry ev command])).2)
  end.
Proof.
  unfold turn. unfold_M. cbn.
  change {| bot := bot s; lastSentAuthors := lastSentAuthors s;
            history := history s ++ [Recv (msgCh ev)] |}
    with (extend s [Recv (msgCh ev)]).
  rewrite onMessage_run. cbn.
  destruct (parseCommand env _ (bot s) ev).1 as [command|]; [|reflexivity].
  rewrite extend_extend. cbn. by destruct (dispatch env ev command _).
Qed.

(** C5.  A message that is a direct message (no member), comes from another
    guild than the target guild, is not resolved as mentioning the bot, or
    whose author holds no allowed role, is parsed to nothing, without an
    error, and the loop's turn on it has no effect: the bot and the map are
    as before, and the interaction grows by the received event alone (no
    reply, no call, no log line). *)
Theorem C5_unqualified_message_ignored (s : state) (ev : MessageCreateEvent) :
  Member_ ev = None
  ∨ GuildID (Message_ ev) ≠ TargetGuildID (bot s)
  ∨ Z.land (MessageMentions env (history s ++ [Recv (msgCh ev)]) (Message_ ev))
           ningen_MessageMentions = 0
  ∨ (∀ member r, Member_ ev = Some member → r ∈ RoleIDs member →
       r ∉ AllowedRoleIDs (botSettings_ (bot s))) →
  parseCommand env (history s ++ [Recv (msgCh ev)]) (bot s) ev = (None, None)
  ∧ turn env (msgCh ev) s =
      (None, {| bot := bot s; lastSentAuthors := lastSentAuthors s;
                history := history s ++ [Recv (msgCh ev)] |}).
Proof.
  intros Hc. pose proof (parseCommand_rejects _ _ _ Hc) as Hp.
  split; [exact Hp|]. rewrite turn_msgCh, Hp. reflexivity.
Qed.

(** C9.  [parseCommand] never returns an error: for every session, bot and
    message its error result is [nil], the outcome being a command or
    nothing.  Hence the loop's branch for a parse error is never taken: a
    message event is either ignored or dispatched, and no run of the loop
    ever logs the line of that branch. *)
Theorem C9_parse_never_fails :
  (∀ dsession b msg, (parseCommand env dsession b msg).2 = None)
  ∧ (∀ ev s,
       onMessage env ev s =
       match (parseCommand env (history s) (bot s) ev).1 with
       | None => (tt, s)
       | Some command => dispatch env ev command (extend s [validCommandEntry ev command])
       end)
  ∧ (∀ cs s, ∃ added,
       history (loop env cs s).2 = history s ++ added
       ∧ Forall (λ e, isParseErrorLog e = false) added).
Proof.
  split; [exact (parseCommand_no_error env)|]. split; [exact (onMessage_run env)|].
  intros cs s.
  assert (Qr : ∀ b : botState, (λ _ _ : botState, True) b b) by done.
  assert (Qt : ∀ b1 b2 b3 : botState,
             (λ _ _ : botState, True) b1 b2 → (λ _ _ : botState, True) b2 b3 →
             (λ _ _ : botState, True) b1 b3) by done.
  enough (Hk : keeps (λ e, isParseErrorLog e = false) (λ _ _, True) (loop env cs))
    by exact (proj2 (Hk s)).
  apply keeps_loop; [assumption..|]. intros c.
  keeps_all; done.
Qed.

(** C8.  A parsed command whose name is neither [announce] nor [edit] makes
    the dispatcher do nothing: the state after the [switch] is the state
    before it (no reply, no message sent or edited, no access to the map,
    no change of the bot), and the whole turn on such a message adds to the
    interaction only the received event and the line that logs the
    command. *)
Theorem C8_unknown_command_is_noop (ev : MessageCreateEvent) (command : parsedCommand) :
  Command command ≠ "announce" → Command command ≠ "edit" →
  (∀ s, dispatch env ev command s = (tt, s))
  ∧ (∀ s,
       (parseCommand env (history s ++ [Recv (msgCh ev)]) (bot s) ev).1 = Some command →
       turn env (msgCh ev) s =
       (None, {| bot := bot s; lastSentAuthors := lastSentAuthors s;
                 history := history s ++ [Recv (msgCh ev); validCommandEntry ev command] |})).
Proof.
  intros Ha He.
  assert (Hd : ∀ s, dispatch env ev command s = (tt, s)).
  { intros s. unfold dispatch.
    destruct (String.eqb_spec (Command command) "announce"); [done|].
    destruct (String.eqb_spec (Command command) "edit"); [done|]. reflexivity. }
  split; [exact Hd|]. intros s Hp. rewrite turn_msgCh, Hp, Hd. reflexivity.
Qed.

End Parser.

(** ** The format of a command *)

Section Format.

Context `{External} (env : Env).

Lemma Cut_cons (c : ascii) (s sep : string) :
  GoStrings.Cut (String c s) sep =
  if GoStrings.HasPrefix (String c s) sep
  then (EmptyString, GoStrings.dropBytes (String.length sep) (String c s), true)
  else let '(before, after, found) := GoStrings.Cut s sep in
       (String c before, after, found).
Proof. reflexivity. Qed.

Lemma append_nil (s : string) : EmptyString +:+ s = s.
Proof. reflexivity. Qed.

Lemma append_cons (c : ascii) (m s : string) : String c m +:+ s = String c (m +:+ s).
Proof. reflexivity. Qed.

(** A text without line feed in front of [s] stays in front of the header. *)
Lemma Cut_LF_app (m s : string) :
  (GoStrings.Cut m GoStrings.LF).2 = false →
  GoStrings.Cut (m +:+ s) GoStrings.LF =
  let '(before, after, found) := GoStrings.Cut s GoStrings.LF in
  (m +:+ before, after, found).
Proof.
  induction m as [|c m IH]; intros Hm.
  - rewrite append_nil.
    destruct (GoStrings.Cut s GoStrings.LF) as [[? ?] ?]. reflexivity.
  - rewrite append_cons.
    rewrite Cut_cons. rewrite Cut_cons in Hm.
    unfold GoStrings.HasPrefix, GoStrings.LF in *. cbn [String.prefix] in *.
    destruct (ascii_dec "010" c) as [->|Hc].
    + destruct m; cbn in Hm; discriminate.
    + destruct (GoStrings.Cut m (String "010" "")) as [[b a] f] eqn:Hcut.
      cbn in Hm. subst f. rewrite IH by reflexivity.
      destruct (GoStrings.Cut s (String "010" "")) as [[? ?] ?]. reflexivity.
Qed.

Lemma HasPrefix_app (m s : string) : GoStrings.HasPrefix (m +:+ s) m = true.
Proof.
  unfold GoStrings.HasPrefix. induction m as [|c m IH].
  - rewrite append_nil. by destruct s.
  - rewrite append_cons. cbn. by destruct (ascii_dec c c).
Qed.

Lemma TrimPrefix_app (m s : string) : GoStrings.TrimPrefix (m +:+ s) m = s.
Proof.
  unfold GoStrings.TrimPrefix. rewrite HasPrefix_app.
  induction m as [|c m IH]; [reflexivity|].
  rewrite append_cons. exact IH.
Qed.

(** The parser on an authorized message, step by step. *)
Lemma parseCommand_authorized (dsession : list Entry) (b : botState)
    (msg : MessageCreateEvent) :
  authorized env dsession b msg →
  parseCommand env dsession b msg =
  (let '(header, body, found) := GoStrings.Cut (Content (Message_ msg)) GoStrings.LF in
   if negb found then None
   else if negb (GoStrings.HasPrefix header (Mention (SelfID b))) then None
   else
     let command :=
       GoStrings.ToLower
         (GoStrings.TrimSpace (GoStrings.TrimPrefix header (Mention (SelfID b)))) in
     if String.eqb command "" then None
     else if String.eqb body "" then None
     else Some {| Command := command; Body := body |},
   None).
Proof.
  intros (member & Hm & Hg & Hf & Hr). unfold parseCommand. rewrite Hm.
  apply Z.eqb_eq in Hg. rewrite Hg. apply Z.eqb_neq in Hf. rewrite Hf.
  apply hasAllowedRole_spec in Hr. rewrite Hr. cbn [negb].
  destruct (GoStrings.Cut _ _) as [[header body] found].
  destruct found; cbn [negb]; [|reflexivity].
  destruct (GoStrings.HasPrefix _ _); cbn [negb]; [|reflexivity].
  destruct (String.eqb _ ""); [reflexivity|].
  destruct (String.eqb body ""); reflexivity.
Qed.

(** The parser on an authorized message whose content begins with the
    mention token. *)
Lemma parseCommand_after_mention (dsession : list Entry) (b : botState)
    (msg : MessageCreateEvent) (rest header body : string) :
  authorized env dsession b msg →
  (GoStrings.Cut (Mention (SelfID b)) GoStrings.LF).2 = false →
  Content (Message_ msg) = Mention (SelfID b) +:+ rest →
  GoStrings.Cut rest GoStrings.LF = (header, body, true) →
  parseCommand env dsession b msg =
  (let command := GoStrings.ToLower (GoStrings.TrimSpace header) in
   if String.eqb command "" then None
   else if String.eqb body "" then None
   else Some {| Command := command; Body := body |},
   None).
Proof.
  intros Ha Hm Hc Hr. rewrite (parseCommand_authorized _ _ _ Ha).
  rewrite Hc, Cut_LF_app, Hr by exact Hm. cbn [negb].
  rewrite HasPrefix_app, TrimPrefix_app. reflexivity.
Qed.

(** C6, as amended.  For an authorized, self-mentioning message the parser
    returns nothing when the content has no newline, and nothing when the
    header (the text before the first newline) does not begin with the bot's
    mention token; otherwise the command is the header without that leading
    token, trimmed and lowered, and the body is the text after the first
    newline as it is, and the parser returns nothing when either is empty.
    In particular a header [ANNOUNCE] and a header [announce] after the
    token give the same command, [announce]. *)
Theorem C6_command_format (dsession : list Entry) (b : botState) :
  (∀ msg, authorized env dsession b msg →
     parseCommand env dsession b msg =
     (if GoStrings.HasPrefix (GoStrings.Cut (Content (Message_ msg)) GoStrings.LF).1.1
                             (Mention (SelfID b))
      then claimedParse b msg else None,
      None))
  ∧ (∀ msg1 msg2,
       authorized env dsession b msg1 → authorized env dsession b msg2 →
       (GoStrings.Cut (Mention (SelfID b)) GoStrings.LF).2 = false →
       Content (Message_ msg1) = Mention (SelfID b) +:+ " ANNOUNCE" +:+ GoStrings.LF +:+ "X" →
       Content (Message_ msg2) = Mention (SelfID b) +:+ " announce" +:+ GoStrings.LF +:+ "X" →
       parseCommand env dsession b msg1 = (Some {| Command := "announce"; Body := "X" |}, None)
       ∧ parseCommand env dsession b msg2 = (Some {| Command := "announce"; Body := "X" |}, None)).
Proof.
  split.
  - intros msg Ha. rewrite (parseCommand_authorized _ _ _ Ha). unfold claimedParse.
    destruct (GoStrings.Cut _ _) as [[header body] found]. cbn [fst].
    destruct found; cbn [negb]; [|by destruct (GoStrings.HasPrefix _ _)].
    destruct (GoStrings.HasPrefix _ _); cbn [negb]; [|reflexivity].
    destruct (String.eqb _ ""); [reflexivity|].
    destruct (String.eqb body ""); reflexivity.
  - intros msg1 msg2 Ha1 Ha2 Hm Hc1 Hc2.
    split.
    + by rewrite (parseCommand_after_mention _ _ _ _ " ANNOUNCE" "X" Ha1 Hm Hc1).
    + by rewrite (parseCommand_after_mention _ _ _ _ " announce" "X" Ha2 Hm Hc2).
Qed.

End Format.

(** ** The dispatcher *)

Section Dispatcher.

Context `{External} (env : Env).

Lemma dispatch_announce (ev : MessageCreateEvent) (command : parsedCommand) :
  Command command = "announce" → dispatch env ev command = announce env ev command.
Proof. intros Hc. unfold dispatch. by rewrite Hc. Qed.

Lemma dispatch_edit (ev : MessageCreateEvent) (command : parsedCommand) :
  Command command = "edit" → dispatch env ev command = edit env ev command.
Proof. intros Hc. unfold dispatch. by rewrite Hc. Qed.

Lemma replyEntries_calls (h : list Entry) (ev : MessageCreateEvent) (text : string)
    (e : Entry) :
  e ∈ replyEntries env h ev text →
  (∃ c t r, e = CallSendMessageReply c t r) ∨ (∃ l m a, e = Slog l m a).
Proof.
  unfold replyEntries. intros Hin.
  apply elem_of_cons in Hin as [->|Hin]; [left; eauto|].
  destruct (SendMessageReply env _ _ _ _); [by apply elem_of_nil in Hin|].
  apply elem_of_cons in Hin as [->|Hin]; [right; eauto|].
  by apply elem_of_nil in Hin.
Qed.

(** *** [announce], case by case *)

Lemma announce_limited (ev : MessageCreateEvent) (command : parsedCommand) (s : state) :
  rateLimited (bot s) (time_Now env (history s)) = true →
  announce env ev command s = (tt, extend s (replyEntries env (history s) ev waitText)).
Proof.
  intros Hr. unfold announce. unfold_M. cbn. rewrite Hr. apply sendReply_run.
Qed.

Lemma announce_send_failed (ev : MessageCreateEvent) (command : parsedCommand) (s : state)
    (err : error) :
  let b := bot s in
  let target := TargetChannelID (botSettings_ b) in
  let h1 := history s ++ [CallSendMessage target (Body command)] in
  rateLimited b (time_Now env (history s)) = false →
  SendMessage env (history s) target (Body command) = inr err →
  announce env ev command s =
  (tt, extend s ([CallSendMessage target (Body command); sendFailedEntry b err]
                 ++ replyEntries env (h1 ++ [sendFailedEntry b err]) ev internalErrorText)).
Proof.
  intros b target h1 Hr Hs. unfold announce, replyInternalError. unfold_M. cbn.
  fold b. rewrite Hr. fold target. rewrite Hs. cbn. rewrite sendReply_run.
  subst h1. unfold extend, sendFailedEntry. cbn.
  repeat rewrite <- app_assoc. reflexivity.
Qed.

Lemma announce_sent (ev : MessageCreateEvent) (command : parsedCommand) (s : state)
    (sent : Message) :
  let b := bot s in
  let target := TargetChannelID (botSettings_ b) in
  let author := User_ID (Author (Message_ ev)) in
  let h1 := history s ++ [CallSendMessage target (Body command)] in
  let h2 := h1 ++ replyEntries env h1 ev sentText in
  rateLimited b (time_Now env (history s)) = false →
  SendMessage env (history s) target (Body command) = inl sent →
  announce env ev command s =
  (tt, {| bot := with_LastAnnouncedTime b (time_Now env h1);
          lastSentAuthors :=
            match Store_err env h2 author (ID sent) with
            | Some _ => Store_failed env h2 author (ID sent) (lastSentAuthors s)
            | None => <[author := ID sent]> (lastSentAuthors s)
            end;
          history :=
            h2 ++ CallStore author (ID sent)
               :: match Store_err env h2 author (ID sent) with
                  | Some err => [storeFailedEntry ev err]
                  | None => []
                  end |}).
Proof.
  intros b target author h1 h2 Hr Hs. unfold announce. unfold_M. cbn.
  fold b. rewrite Hr. fold target. rewrite Hs. cbn. rewrite sendReply_run.
  subst h2 h1. unfold extend, storeFailedEntry. cbn. fold author.
  destruct (Store_err env _ author (ID sent)); cbn;
    repeat rewrite <- app_assoc; reflexivity.
Qed.

(** *** [edit], case by case *)

Lemma edit_load_failed (ev : MessageCreateEvent) (command : parsedCommand) (s : state)
    (err : error) :
  let author := User_ID (Author (Message_ ev)) in
  let h1 := history s ++ [CallLoad author] in
  Load_err env (history s) author = Some err →
  edit env ev command s =
  (tt, extend s ([CallLoad author; loadFailedEntry ev err]
                 ++ replyEntries env (h1 ++ [loadFailedEntry ev err]) ev internalErrorText)).
Proof.
  intros author h1 Hl. unfold edit, replyInternalError. unfold_M. cbn.
  fold author. rewrite Hl. cbn. rewrite sendReply_run.
  subst h1. unfold extend, loadFailedEntry. cbn.
  repeat rewrite <- app_assoc. reflexivity.
Qed.

Lemma edit_not_found (ev : MessageCreateEvent) (command : parsedCommand) (s : state) :
  let author := User_ID (Author (Message_ ev)) in
  let h1 := history s ++ [CallLoad author] in
  Load_err env (history s) author = None →
  lastSentAuthors s !! author = None →
  edit env ev command s =
  (tt, extend s (CallLoad author :: replyEntries env h1 ev notFoundText)).
Proof.
  intros author h1 Hl Hn. unfold edit. unfold_M. cbn.
  fold author. rewrite Hl, Hn. cbn. rewrite sendReply_run.
  subst h1. unfold extend. cbn. repeat rewrite <- app_assoc. reflexivity.
Qed.

Lemma edit_found (ev : MessageCreateEvent) (command : parsedCommand) (s : state)
    (lastSent : Z) :
  let b := bot s in
  let target := TargetChannelID (botSettings_ b) in
  let author := User_ID (Author (Message_ ev)) in
  let h1 := history s ++ [CallLoad author] in
  let h2 := h1 ++ [CallEditMessage target lastSent (Body command)] in
  Load_err env (history s) author = None →
  lastSentAuthors s !! author = Some lastSent →
  edit env ev command s =
  (tt, extend s
         ([CallLoad author; CallEditMessage target lastSent (Body command)]
          ++ match EditMessage env h1 target lastSent (Body command) with
             | inr err =>
                 editFailedEntry b lastSent err
                 :: replyEntries env (h2 ++ [editFailedEntry b lastSent err]) ev
                      internalErrorText
             | inl _ => []
             end)).
Proof.
  intros b target author h1 h2 Hl Hf. unfold edit, replyInternalError. unfold_M. cbn.
  fold author. rewrite Hl, Hf. cbn. fold b target.
  subst h2 h1. destruct (EditMessage env _ target lastSent (Body command)); cbn.
  - unfold extend. cbn. repeat rewrite <- app_assoc. reflexivity.
  - rewrite sendReply_run. unfold extend, editFailedEntry. cbn.
    repeat rewrite <- app_assoc. reflexivity.
Qed.

(** Whatever happens, [edit] only adds to the interaction. *)
Lemma edit_extends (ev : MessageCreateEvent) (command : parsedCommand) (s : state) :
  ∃ added, edit env ev command s = (tt, extend s added).
Proof.
  destruct (Load_err env (history s) (User_ID (Author (Message_ ev)))) as [err|] eqn:Hl.
  - eexists. by apply edit_load_failed.
  - destruct (lastSentAuthors s !! User_ID (Author (Message_ ev))) as [m|] eqn:Hf.
    + eexists. by apply edit_found.
    + eexists. by apply edit_not_found.
Qed.

(** *** The rate limit *)

Lemma rateLimited_spec (b : botState) (now : GoTime.Time) :
  GoTime.minDuration < MinAnnounceTimeGap (botSettings_ b) ≤ GoTime.maxDuration →
  negb (rateLimited b now) = Allow now (LastAnnouncedTime b) (MinAnnounceTimeGap (botSettings_ b)).
Proof.
  intros Hg. unfold rateLimited, Allow, GoTime.Since, GoTime.Sub.
  unfold GoTime.minDuration, GoTime.maxDuration in *.
  change (2 ^ 63) with 9223372036854775808 in *.
  destruct (Z.ltb_spec (now - LastAnnouncedTime b) (- (9223372036854775808)));
    [|destruct (Z.ltb_spec (9223372036854775808 - 1) (now - LastAnnouncedTime b))];
    match goal with
    | |- context [?x <? ?y] => destruct (Z.ltb_spec x y)
    end;
    case_bool_decide; cbn; try reflexivity; lia.
Qed.

(** The test decides between the wait reply and the send. *)
Lemma announce_gate (ev : MessageCreateEvent) (command : parsedCommand) (s : state) :
  Command command = "announce" →
  (rateLimited (bot s) (time_Now env (history s)) = true →
   dispatch env ev command s =
     (tt, {| bot := bot s; lastSentAuthors := lastSentAuthors s;
             history := history s ++ replyEntries env (history s) ev waitText |}))
  ∧ (rateLimited (bot s) (time_Now env (history s)) = false →
     ∃ rest,
       history (dispatch env ev command s).2 =
       history s
       ++ CallSendMessage (TargetChannelID (botSettings_ (bot s))) (Body command)
          :: rest).
Proof.
  intros Hc. rewrite (dispatch_announce _ _ Hc). split; intros Hr.
  - by rewrite announce_limited.
  - destruct (SendMessage env (history s) (TargetChannelID (botSettings_ (bot s)))
                (Body command)) as [sent|err] eqn:Hs.
    + rewrite (announce_sent _ _ _ sent Hr Hs). cbn.
      eexists. rewrite <- !app_assoc. cbn. reflexivity.
    + rewrite (announce_send_failed _ _ _ err Hr Hs). cbn. eauto.
Qed.

(** C2.  An [announce] is let through by the test of the loop exactly when
    [now - lastAnnounceTime >= minGap], that is when [Allow] of the
    specification holds ([minGap] being any 64-bit duration but the least): a
    limited command is answered by the wait reply and nothing else, an
    allowed one goes on to send.  With [minGap = 4h], after an announce that
    succeeded at [t0], an announce at [t0 + 3h59m] gets the wait reply and
    an announce at [t0 + 4h] is sent. *)
Theorem C2_rate_limit :
  (∀ b now,
     GoTime.minDuration < MinAnnounceTimeGap (botSettings_ b) ≤ GoTime.maxDuration →
     (rateLimited b now = false
      ↔ now - LastAnnouncedTime b >= MinAnnounceTimeGap (botSettings_ b))
     ∧ negb (rateLimited b now)
       = Allow now (LastAnnouncedTime b) (MinAnnounceTimeGap (botSettings_ b)))
  ∧ (∀ ev command s,
       Command command = "announce" →
       (rateLimited (bot s) (time_Now env (history s)) = true →
        dispatch env ev command s =
          (tt, {| bot := bot s; lastSentAuthors := lastSentAuthors s;
                  history := history s ++ replyEntries env (history s) ev waitText |}))
       ∧ (rateLimited (bot s) (time_Now env (history s)) = false →
          ∃ rest,
            history (dispatch env ev command s).2 =
            history s
            ++ CallSendMessage (TargetChannelID (botSettings_ (bot s))) (Body command)
               :: rest))
  ∧ (∀ ev command s sent,
       let target := TargetChannelID (botSettings_ (bot s)) in
       let t0 := time_Now env (history s ++ [CallSendMessage target (Body command)]) in
       MinAnnounceTimeGap (botSettings_ (bot s)) = 4 * GoTime.Hour →
       Command command = "announce" →
       rateLimited (bot s) (time_Now env (history s)) = false →
       SendMessage env (history s) target (Body command) = inl sent →
       LastAnnouncedTime (bot (dispatch env ev command s).2) = t0
       ∧ ∀ ev' command' s',
           bot s' = bot (dispatch env ev command s).2 →
           Command command' = "announce" →
           (time_Now env (history s') = t0 + 3 * GoTime.Hour + 59 * GoTime.Minute →
            dispatch env ev' command' s' =
              (tt, {| bot := bot s'; lastSentAuthors := lastSentAuthors s';
                      history := history s' ++ replyEntries env (history s') ev' waitText |}))
           ∧ (time_Now env (history s') = t0 + 4 * GoTime.Hour →
              ∃ rest,
                history (dispatch env ev' command' s').2 =
                history s' ++ CallSendMessage target (Body command') :: rest)).
Proof.
  split; [|split; [exact announce_gate|]].
  - intros b now Hg. pose proof (rateLimited_spec b now Hg) as Ha.
    split; [|exact Ha]. unfold Allow in Ha.
    destruct (rateLimited b now); cbn in Ha; case_bool_decide; try done; split; done.
  - intros ev command s sent target t0 Hgap Hc Hr Hs.
    rewrite (dispatch_announce _ _ Hc), (announce_sent _ _ _ sent Hr Hs). cbn.
    split; [reflexivity|]. intros ev' command' s' Hb Hc'.
    destruct (announce_gate ev' command' s' Hc') as [Hlim Hall].
    assert (Hset : botSettings_ (bot s') = botSettings_ (bot s)) by by rewrite Hb.
    assert (Hlast : LastAnnouncedTime (bot s') = t0) by by rewrite Hb.
    split; intros Ht.
    + apply Hlim. unfold rateLimited, GoTime.Since, GoTime.Sub.
      rewrite Ht, Hlast, Hset, Hgap.
      unfold GoTime.minDuration, GoTime.maxDuration, GoTime.Hour, GoTime.Minute,
        GoTime.Second, GoTime.Nanosecond.
      change (2 ^ 63) with 9223372036854775808.
      repeat match goal with
             | |- context [if ?x <? ?y then _ else _] => destruct (Z.ltb_spec x y)
             end; try lia;
        match goal with
        | |- (?x <? ?y) = _ => destruct (Z.ltb_spec x y)
        end; try reflexivity; lia.
    + subst target. rewrite <- Hset. apply Hall.
      unfold rateLimited, GoTime.Since, GoTime.Sub.
      rewrite Ht, Hlast, Hset, Hgap.
      unfold GoTime.minDuration, GoTime.maxDuration, GoTime.Hour, GoTime.Minute,
        GoTime.Second, GoTime.Nanosecond.
      change (2 ^ 63) with 9223372036854775808.
      repeat match goal with
             | |- context [if ?x <? ?y then _ else _] => destruct (Z.ltb_spec x y)
             end; try lia;
        match goal with
        | |- (?x <? ?y) = _ => destruct (Z.ltb_spec x y)
        end; try reflexivity; lia.
Qed.

(** C4.  An [announce] command that passes the rate limit sends the body to
    the target channel.  If the send fails, the failure is logged and the
    internal-error reply is sent; the bot (so [LastAnnouncedTime]) and the
    map are unchanged and no [Store] is called.  If the send succeeds,
    [LastAnnouncedTime] is the clock reading taken after the send, whatever
    becomes of the reply and of the store, and the other fields of the bot
    are as before; the acknowledgment is replied, and then
    [Store(author, sent message)] is called: when it succeeds the author's
    entry is the sent message, when it fails the failure is logged, and in
    both cases the send, the reply and the new [LastAnnouncedTime] stand. *)
Theorem C4_announce_outcomes (ev : MessageCreateEvent) (command : parsedCommand) (s : state) :
  let b := bot s in
  let target := TargetChannelID (botSettings_ b) in
  let author := User_ID (Author (Message_ ev)) in
  let h1 := history s ++ [CallSendMessage target (Body command)] in
  let s' := (dispatch env ev command s).2 in
  Command command = "announce" →
  rateLimited b (time_Now env (history s)) = false →
  (∀ err, SendMessage env (history s) target (Body command) = inr err →
     let added :=
       [CallSendMessage target (Body command); sendFailedEntry b err]
       ++ replyEntries env (h1 ++ [sendFailedEntry b err]) ev internalErrorText in
     dispatch env ev command s =
       (tt, {| bot := b; lastSentAuthors := lastSentAuthors s;
               history := history s ++ added |})
     ∧ LastAnnouncedTime (bot s') = LastAnnouncedTime b
     ∧ ∀ k v, CallStore k v ∉ added)
  ∧ (∀ sent, SendMessage env (history s) target (Body command) = inl sent →
       let h2 := h1 ++ replyEntries env h1 ev sentText in
       LastAnnouncedTime (bot s') = time_Now env h1
       ∧ SelfID (bot s') = SelfID b
       ∧ TargetGuildID (bot s') = TargetGuildID b
       ∧ botSettings_ (bot s') = botSettings_ b
       ∧ history s' =
           h2 ++ CallStore author (ID sent)
              :: match Store_err env h2 author (ID sent) with
                 | Some err => [storeFailedEntry ev err]
                 | None => []
                 end
       ∧ (Store_err env h2 author (ID sent) = None →
          lastSentAuthors s' = <[author := ID sent]> (lastSentAuthors s)
          ∧ lastSentAuthors s' !! author = Some (ID sent))).
Proof.
  intros b target author h1 s' Hc Hr. subst s'. rewrite (dispatch_announce _ _ Hc).
  split.
  - intros err Hs added. rewrite (announce_send_failed _ _ _ err Hr Hs).
    split; [reflexivity|]. split; [reflexivity|].
    intros k v Hin.
    do 2 (apply elem_of_cons in Hin as [Hin|Hin]; [discriminate|]).
    apply replyEntries_calls in Hin as [(? & ? & ? & ?)|(? & ? & ? & ?)]; discriminate.
  - intros sent Hs h2. rewrite (announce_sent _ _ _ sent Hr Hs).
    cbn [snd bot history lastSentAuthors]. fold b target author h1 h2.
    do 4 (split; [reflexivity|]). split; [reflexivity|].
    intros ->. split; [reflexivity|]. apply lookup_insert_eq.
Qed.

(** C3.  A dispatched [edit] loads the author's entry.  If the load fails,
    the failure is logged, the internal-error reply is sent and nothing
    else happens.  If there is no entry, the could-not-find reply is sent
    and [EditMessage] is not called.  If there is one, [EditMessage] is
    called on the target channel with exactly the identifier stored under
    this author and the new body; a failure is logged and answered by the
    internal-error reply, a success by nothing.  The identifier is the one
    the author's last stored announce put there: an [edit] right after an
    [announce] of the same author that was sent and stored edits the
    message that announce sent, and the entries of other authors are not
    touched by that announce. *)
Theorem C3_edit_outcomes (ev : MessageCreateEvent) (command : parsedCommand) (s : state) :
  let b := bot s in
  let target := TargetChannelID (botSettings_ b) in
  let author := User_ID (Author (Message_ ev)) in
  let h1 := history s ++ [CallLoad author] in
  Command command = "edit" →
  (∀ err, Load_err env (history s) author = Some err →
     dispatch env ev command s =
       (tt, {| bot := b; lastSentAuthors := lastSentAuthors s;
               history :=
                 history s
                 ++ [CallLoad author; loadFailedEntry ev err]
                 ++ replyEntries env (h1 ++ [loadFailedEntry ev err]) ev internalErrorText |}))
  ∧ (Load_err env (history s) author = None →
     lastSentAuthors s !! author = None →
     let added := CallLoad author :: replyEntries env h1 ev notFoundText in
     dispatch env ev command s =
       (tt, {| bot := b; lastSentAuthors := lastSentAuthors s;
               history := history s ++ added |})
     ∧ ∀ c m t, CallEditMessage c m t ∉ added)
  ∧ (∀ lastSent,
       Load_err env (history s) author = None →
       lastSentAuthors s !! author = Some lastSent →
       let h2 := h1 ++ [CallEditMessage target lastSent (Body command)] in
       (∀ err, EditMessage env h1 target lastSent (Body command) = inr err →
          dispatch env ev command s =
            (tt, {| bot := b; lastSentAuthors := lastSentAuthors s;
                    history :=
                      h2 ++ editFailedEntry b lastSent err
                         :: replyEntries env (h2 ++ [editFailedEntry b lastSent err]) ev
                              internalErrorText |}))
       ∧ (∀ edited, EditMessage env h1 target lastSent (Body command) = inl edited →
            dispatch env ev command s =
              (tt, {| bot := b; lastSentAuthors := lastSentAuthors s; history := h2 |})))
  ∧ (∀ ev0 command0 s0 sent,
       let target0 := TargetChannelID (botSettings_ (bot s0)) in
       let g1 := history s0 ++ [CallSendMessage target0 (Body command0)] in
       let g2 := g1 ++ replyEntries env g1 ev0 sentText in
       Command command0 = "announce" →
       rateLimited (bot s0) (time_Now env (history s0)) = false →
       SendMessage env (history s0) target0 (Body command0) = inl sent →
       Store_err env g2 (User_ID (Author (Message_ ev0))) (ID sent) = None →
       s = (dispatch env ev0 command0 s0).2 →
       (∀ other, other ≠ User_ID (Author (Message_ ev0)) →
          lastSentAuthors s !! other = lastSentAuthors s0 !! other)
       ∧ (author = User_ID (Author (Message_ ev0)) →
          Load_err env (history s) author = None →
          ∃ rest,
            history (dispatch env ev command s).2 =
            history s
            ++ CallLoad author :: CallEditMessage target0 (ID sent) (Body command) :: rest)).
Proof.
  intros b target author h1 Hc. rewrite (dispatch_edit _ _ Hc).
  split; [|split; [|split]].
  - intros err Hl. by rewrite (edit_load_failed _ _ _ err Hl).
  - intros Hl Hn added. split; [by rewrite (edit_not_found _ _ _ Hl Hn)|].
    intros c m t Hin. apply elem_of_cons in Hin as [Hin|Hin]; [discriminate|].
    apply replyEntries_calls in Hin as [(? & ? & ? & ?)|(? & ? & ? & ?)]; discriminate.
  - intros lastSent Hl Hf h2. split.
    + intros err He. rewrite (edit_found _ _ _ lastSent Hl Hf).
      subst h2 h1 author target b. rewrite He. unfold extend. cbn.
      repeat rewrite <- app_assoc. reflexivity.
    + intros edited He. rewrite (edit_found _ _ _ lastSent Hl Hf).
      subst h2 h1 author target b. rewrite He. unfold extend. cbn.
      repeat rewrite <- app_assoc. reflexivity.
  - intros ev0 command0 s0 sent target0 g1 g2 Hc0 Hr Hs Hst Heq.
    rewrite (dispatch_announce _ _ Hc0), (announce_sent _ _ _ sent Hr Hs) in Heq.
    fold target0 g1 g2 in Heq. rewrite Hst in Heq. cbn in Heq.
    assert (Hstore : lastSentAuthors s
                     = <[User_ID (Author (Message_ ev0)) := ID sent]> (lastSentAuthors s0))
      by by rewrite Heq.
    assert (Hset : botSettings_ (bot s) = botSettings_ (bot s0)) by by rewrite Heq.
    split.
    + intros other Hne. rewrite Hstore. by apply lookup_insert_ne.
    + intros Ha Hl.
      assert (Hf : lastSentAuthors s !! author = Some (ID sent))
        by (rewrite Hstore, Ha; apply lookup_insert_eq).
      rewrite (edit_found _ _ _ (ID sent) Hl Hf). cbn.
      fold b. subst target0. rewrite <- Hset. eauto.
Qed.

(** C10.  A dispatched [edit], whatever its outcome, leaves the bot
    ([SelfID], [TargetGuildID], [LastAnnouncedTime] and the settings) and
    the contents of the map as they were.  So it does not move the rate
    limit, and an [edit] that follows it finds the same entry: when the
    author has an entry and the load does not fail, the second [edit] calls
    [EditMessage] on the same identifier. *)
Theorem C10_edit_frame (ev : MessageCreateEvent) (command : parsedCommand) (s : state) :
  Command command = "edit" →
  let s' := (dispatch env ev command s).2 in
  bot s' = bot s
  ∧ SelfID (bot s') = SelfID (bot s)
  ∧ TargetGuildID (bot s') = TargetGuildID (bot s)
  ∧ LastAnnouncedTime (bot s') = LastAnnouncedTime (bot s)
  ∧ lastSentAuthors s' = lastSentAuthors s
  ∧ (∀ now, rateLimited (bot s') now = rateLimited (bot s) now)
  ∧ (∀ ev2 command2 lastSent,
       Command command2 = "edit" →
       User_ID (Author (Message_ ev2)) = User_ID (Author (Message_ ev)) →
       lastSentAuthors s !! User_ID (Author (Message_ ev)) = Some lastSent →
       Load_err env (history s') (User_ID (Author (Message_ ev))) = None →
       ∃ rest,
         history (dispatch env ev2 command2 s').2 =
         history s'
         ++ CallLoad (User_ID (Author (Message_ ev)))
            :: CallEditMessage (TargetChannelID (botSettings_ (bot s))) lastSent
                 (Body command2)
            :: rest).
Proof.
  intros Hc s'. subst s'. rewrite (dispatch_edit _ _ Hc).
  destruct (edit_extends ev command s) as [added Hrun]. rewrite Hrun. cbn.
  do 5 (split; [reflexivity|]). split; [reflexivity|].
  intros ev2 command2 lastSent Hc2 Ha Hf Hl.
  rewrite (dispatch_edit _ _ Hc2).
  rewrite <- Ha in Hf, Hl.
  rewrite (edit_found ev2 command2 (extend s added) lastSent Hl Hf). cbn.
  rewrite Ha. eauto.
Qed.

End Dispatcher.

(** ** The loop *)

Section Loop.

Context `{External} (env : Env).

Lemma trySubscribe_valid (s : state) :
  IsValid (TargetGuildID (bot s)) = true → trySubscribe env s = (true, s).
Proof. intros Hv. unfold trySubscribe. unfold_M. cbn. by rewrite Hv. Qed.

(** With the guild recorded, a turn keeps it and makes no subscription
    attempt. *)
Lemma turn_subscribed (c : selected) (s : state) :
  IsValid (TargetGuildID (bot s)) = true →
  grows (λ e, isSubscription e = false)
        (λ b b', TargetGuildID b' = TargetGuildID b) s (turn env c s).2.
Proof.
  intros Hv.
  assert (Qr : ∀ b : botState,
             (λ b b' : botState, TargetGuildID b' = TargetGuildID b) b b) by done.
  assert (Qt : ∀ b1 b2 b3 : botState,
             (λ b b' : botState, TargetGuildID b' = TargetGuildID b) b1 b2 →
             (λ b b' : botState, TargetGuildID b' = TargetGuildID b) b2 b3 →
             (λ b b' : botState, TargetGuildID b' = TargetGuildID b) b1 b3)
    by (cbn; congruence).
  destruct c as [| |ev| | |ev].
  - split; [done|]. exists [Recv ctx_Done]. split; [done|]. by repeat constructor.
  - split; [done|]. exists [Recv startupTimeout]. split; [done|]. by repeat constructor.
  - unfold turn. unfold_M. cbn. rewrite trySubscribe_valid by exact Hv. cbn.
    split; [done|]. eexists. rewrite <- app_assoc. split; [done|].
    by repeat constructor.
  - unfold turn. unfold_M. cbn. rewrite trySubscribe_valid by exact Hv. cbn.
    split; [done|]. eexists. split; [done|]. by repeat constructor.
  - unfold turn. unfold_M. cbn. rewrite trySubscribe_valid by exact Hv. cbn.
    split; [done|]. eexists. split; [done|]. by repeat constructor.
  - revert s Hv.
    enough (Hk : keeps (λ e, isSubscription e = false)
                   (λ b b', TargetGuildID b' = TargetGuildID b) (turn env (msgCh ev)))
      by (intros s _; apply Hk).
    keeps_all; done.
Qed.

(** C7.  Once the target guild is recorded in the bot (its identifier is
    valid), a subscription attempt is a successful no-op: [trySubscribe]
    returns [true] and changes nothing.  And whatever cases the loop then
    takes, the recorded guild stays the same and the interaction gains no
    subscription attempt: no channel lookup, no guild subscription, no
    handler registration. *)
Theorem C7_guild_recorded_once (cs : list selected) (s : state) :
  IsValid (TargetGuildID (bot s)) = true →
  trySubscribe env s = (true, s)
  ∧ TargetGuildID (bot (loop env cs s).2) = TargetGuildID (bot s)
  ∧ ∃ added,
      history (loop env cs s).2 = history s ++ added
      ∧ Forall (λ e, isSubscription e = false) added.
Proof.
  intros Hv. split; [by apply trySubscribe_valid|].
  enough (Hg : grows (λ e, isSubscription e = false)
                 (λ b b', TargetGuildID b' = TargetGuildID b) s (loop env cs s).2)
    by exact Hg.
  revert s Hv. induction cs as [|c cs IH]; intros s Hv.
  - apply grows_refl. done.
  - cbn. unfold mbind, M_bind.
    pose proof (turn_subscribed c s Hv) as Ht.
    destruct (turn env c s) as [[err|] s1]; cbn in *; [exact Ht|].
    eapply grows_trans; [cbn; congruence|exact Ht|].
    apply IH. destruct Ht as [Hq _]. cbn in Hq. by rewrite Hq.
Qed.

End Loop.

(** ** The runs of the program *)

Section RealRuns.

Context `{External} (env : Env).


End RealRuns.

(** ** The theorems at concrete messages *)

Section Witnesses.

#[local] Existing Instance Sample.arikawa.

Lemma fromAlice_authorized (clock : nat → GoTime.Time) (content : string)
    (dsession : list Entry) (last : GoTime.Time) (store : gmap Z Z) (h : list Entry) :
  authorized (Sample.calm clock) dsession (bot (Sample.ready last store h))
    (Sample.fromAlice content).
Proof.
  exists {| RoleIDs := [1; 808121046028779602] |}.
  repeat split; [vm_compute; discriminate|].
  exists 808121046028779602. split; [set_solver|]. cbn. set_solver.
Qed.

(** C6, as the claim has it, fails: [alice], authorized, writes [announce],
    a newline and a body that mentions the bot.  The claim's parse is the
    command [announce] with that body; [parseCommand] returns nothing, the
    header not beginning with the mention. *)
Lemma C6_claim_fails_without_leading_mention :
  authorized Sample.world [] (bot Sample.fresh) Sample.trailingEv
  ∧ claimedParse (bot Sample.fresh) Sample.trailingEv
    = Some {| Command := "announce"; Body := "hello <@42>" |}
  ∧ parseCommand Sample.world [] (bot Sample.fresh) Sample.trailingEv = (None, None)
  ∧ (parseCommand Sample.world [] (bot Sample.fresh) Sample.trailingEv).1
    ≠ claimedParse (bot Sample.fresh) Sample.trailingEv.
Proof.
  split; [apply fromAlice_authorized|].
  split; [vm_compute; reflexivity|].
  split; [vm_compute; reflexivity|].
  vm_compute. discriminate.
Qed.

Lemma C5_unqualified_message_ignored_witness :
  Member_ Sample.directEv = None
  ∧ parseCommand Sample.world (history Sample.fresh ++ [Recv (msgCh Sample.directEv)])
      (bot Sample.fresh) Sample.directEv = (None, None)
  ∧ turn Sample.world (msgCh Sample.directEv) Sample.fresh
    = (None, {| bot := bot Sample.fresh; lastSentAuthors := lastSentAuthors Sample.fresh;
                history := history Sample.fresh ++ [Recv (msgCh Sample.directEv)] |}).
Proof.
  split; [reflexivity|].
  apply (C5_unqualified_message_ignored Sample.world Sample.fresh Sample.directEv).
  left. reflexivity.
Defined.

Lemma C6_command_format_witness :
  authorized Sample.world [] (bot Sample.fresh) Sample.shoutedEv
  ∧ authorized Sample.world [] (bot Sample.fresh) Sample.spokenEv
  ∧ (GoStrings.Cut (Mention (SelfID (bot Sample.fresh))) GoStrings.LF).2 = false
  ∧ parseCommand Sample.world [] (bot Sample.fresh) Sample.shoutedEv
    = (Some {| Command := "announce"; Body := "X" |}, None)
  ∧ parseCommand Sample.world [] (bot Sample.fresh) Sample.spokenEv
    = (Some {| Command := "announce"; Body := "X" |}, None)
  ∧ parseCommand Sample.world [] (bot Sample.fresh) Sample.trailingEv = (None, None).
Proof.
  split; [apply fromAlice_authorized|].
  split; [apply fromAlice_authorized|].
  split; [reflexivity|].
  destruct (C6_command_format Sample.world [] (bot Sample.fresh)) as [Hall Hcase].
  split; [|split].
  - apply (Hcase Sample.shoutedEv Sample.spokenEv);
      [apply fromAlice_authorized | apply fromAlice_authorized | reflexivity..].
  - apply (Hcase Sample.shoutedEv Sample.spokenEv);
      [apply fromAlice_authorized | apply fromAlice_authorized | reflexivity..].
  - rewrite (Hall Sample.trailingEv (fromAlice_authorized _ _ _ _ _ _)).
    vm_compute. reflexivity.
Defined.

Lemma C8_unknown_command_is_noop_witness :
  Command Sample.pingCmd ≠ "announce"
  ∧ Command Sample.pingCmd ≠ "edit"
  ∧ (parseCommand Sample.world (history Sample.recorded ++ [Recv (msgCh Sample.pingEv)])
       (bot Sample.recorded) Sample.pingEv).1 = Some Sample.pingCmd
  ∧ dispatch Sample.world Sample.pingEv Sample.pingCmd Sample.recorded = (tt, Sample.recorded)
  ∧ turn Sample.world (msgCh Sample.pingEv) Sample.recorded
    = (None, {| bot := bot Sample.recorded;
                lastSentAuthors := lastSentAuthors Sample.recorded;
                history := history Sample.recorded
                           ++ [Recv (msgCh Sample.pingEv);
                               validCommandEntry Sample.pingEv Sample.pingCmd] |}).
Proof.
  assert (Ha : Command Sample.pingCmd ≠ "announce") by (vm_compute; discriminate).
  assert (He : Command Sample.pingCmd ≠ "edit") by (vm_compute; discriminate).
  assert (Hp : (parseCommand Sample.world
                  (history Sample.recorded ++ [Recv (msgCh Sample.pingEv)])
                  (bot Sample.recorded) Sample.pingEv).1 = Some Sample.pingCmd)
    by (vm_compute; reflexivity).
  destruct (C8_unknown_command_is_noop Sample.world Sample.pingEv Sample.pingCmd Ha He)
    as [Hd Ht].
  split; [exact Ha|]. split; [exact He|]. split; [exact Hp|].
  split; [apply Hd|]. apply Ht. exact Hp.
Defined.

Lemma C7_guild_recorded_once_witness :
  IsValid (TargetGuildID (bot Sample.fresh)) = true
  ∧ trySubscribe Sample.world Sample.fresh = (true, Sample.fresh)
  ∧ TargetGuildID
      (bot (loop Sample.world [guildCh; Sample.online; msgCh Sample.announceEv]
              Sample.fresh).2) = 77
  ∧ ∃ added,
      history (loop Sample.world [guildCh; Sample.online; msgCh Sample.announceEv]
                 Sample.fresh).2 = history Sample.fresh ++ added
      ∧ Forall (λ e, isSubscription e = false) added.
Proof.
  split; [reflexivity|].
  apply (C7_guild_recorded_once Sample.world
           [guildCh; Sample.online; msgCh Sample.announceEv] Sample.fresh).
  reflexivity.
Defined.

Lemma C4_announce_outcomes_witness :
  Command Sample.announceCmd = "announce"
  ∧ rateLimited (bot Sample.fresh) (time_Now Sample.world (history Sample.fresh)) = false
  ∧ SendMessage Sample.world (history Sample.fresh)
      (TargetChannelID (botSettings_ (bot Sample.fresh))) (Body Sample.announceCmd)
    = inl (Sample.reply 0)
  ∧ LastAnnouncedTime (bot Sample.fresh) = 0
  ∧ LastAnnouncedTime
      (bot (dispatch Sample.world Sample.announceEv Sample.announceCmd Sample.fresh).2)
    = Sample.epoch + 1 * GoTime.Second
  ∧ SelfID (bot (dispatch Sample.world Sample.announceEv Sample.announceCmd Sample.fresh).2)
    = 42
  ∧ TargetGuildID
      (bot (dispatch Sample.world Sample.announceEv Sample.announceCmd Sample.fresh).2)
    = 77
  ∧ history (dispatch Sample.world Sample.announceEv Sample.announceCmd Sample.fresh).2
    = [CallSendMessage 710342070342254613 "hello";
       CallSendMessageReply 9 "<@5>, the announcement has been sent." 100;
       CallStore 5 0]
  ∧ lastSentAuthors
      (dispatch Sample.world Sample.announceEv Sample.announceCmd Sample.fresh).2 !! 5
    = Some 0
  ∧ rateLimited (bot (Sample.later (- 5 * GoTime.Hour) 0))
      (time_Now Sample.broken (history (Sample.later (- 5 * GoTime.Hour) 0))) = false
  ∧ dispatch Sample.broken Sample.announceEv Sample.announceCmd
      (Sample.later (- 5 * GoTime.Hour) 0)
    = (tt, {| bot := bot (Sample.later (- 5 * GoTime.Hour) 0);
              lastSentAuthors := ∅;
              history :=
                [CallSendMessage 710342070342254613 "hello";
                 sendFailedEntry (bot Sample.fresh) (errorString "send failed");
                 CallSendMessageReply 9
                   ("<@5>, " +:+ internalErrorText) 100;
                 Slog LevelError "Bot has failed to deliver a reply."
                   [("channel_id", AID 9); ("author_id", AID 5);
                    ("err", AErr (errorString "reply failed"))]] |})
  ∧ LastAnnouncedTime
      (bot (dispatch Sample.broken Sample.announceEv Sample.announceCmd
              (Sample.later (- 5 * GoTime.Hour) 0)).2)
    = - 5 * GoTime.Hour.
Proof.
  destruct (C4_announce_outcomes Sample.world Sample.announceEv Sample.announceCmd
              Sample.fresh eq_refl eq_refl) as [_ Hsent].
  destruct (C4_announce_outcomes Sample.broken Sample.announceEv Sample.announceCmd
              (Sample.later (- 5 * GoTime.Hour) 0) eq_refl eq_refl) as [Hfailed _].
  destruct (Hsent (Sample.reply 0) eq_refl) as (Hlast & Hself & Hguild & _ & Hhist & Hmap).
  destruct (Hfailed (errorString "send failed") eq_refl) as (Hrun & Hkept & _).
  split; [reflexivity|]. split; [reflexivity|]. split; [reflexivity|].
  split; [reflexivity|].
  split; [rewrite Hlast; vm_compute; reflexivity|].
  split; [rewrite Hself; reflexivity|].
  split; [rewrite Hguild; reflexivity|].
  split; [rewrite Hhist; vm_compute; reflexivity|].
  split; [exact (proj2 (Hmap eq_refl))|].
  split; [reflexivity|].
  split; [rewrite Hrun; vm_compute; reflexivity|].
  rewrite Hkept. reflexivity.
Defined.

Lemma C3_edit_outcomes_witness :
  Command Sample.editCmd = "edit"
  ∧ Load_err Sample.world (history Sample.recorded) 5 = None
  ∧ lastSentAuthors Sample.recorded !! 5 = Some 8
  ∧ dispatch Sample.world Sample.editEv Sample.editCmd Sample.recorded
    = (tt, {| bot := bot Sample.recorded; lastSentAuthors := lastSentAuthors Sample.recorded;
              history := [CallLoad 5; CallEditMessage 710342070342254613 8 "fixed"] |})
  ∧ lastSentAuthors Sample.fresh !! 5 = None
  ∧ dispatch Sample.world Sample.editEv Sample.editCmd Sample.fresh
    = (tt, {| bot := bot Sample.fresh; lastSentAuthors := lastSentAuthors Sample.fresh;
              history :=
                [CallLoad 5;
                 CallSendMessageReply 9 ("<@5>, " +:+ notFoundText) 100] |})
  ∧ dispatch Sample.broken Sample.editEv Sample.editCmd Sample.recorded
    = (tt, {| bot := bot Sample.recorded; lastSentAuthors := lastSentAuthors Sample.recorded;
              history :=
                [CallLoad 5;
                 loadFailedEntry Sample.editEv (errorString "load failed");
                 CallSendMessageReply 9 ("<@5>, " +:+ internalErrorText) 100;
                 Slog LevelError "Bot has failed to deliver a reply."
                   [("channel_id", AID 9); ("author_id", AID 5);
                    ("err", AErr (errorString "reply failed"))]] |}).
Proof.
  destruct (C3_edit_outcomes Sample.world Sample.editEv Sample.editCmd Sample.recorded
              eq_refl) as (_ & _ & Hfound & _).
  destruct (C3_edit_outcomes Sample.world Sample.editEv Sample.editCmd Sample.fresh
              eq_refl) as (_ & Hnone & _).
  destruct (C3_edit_outcomes Sample.broken Sample.editEv Sample.editCmd Sample.recorded
              eq_refl) as (Hload & _).
  split; [reflexivity|]. split; [reflexivity|]. split; [reflexivity|].
  split; [|split; [reflexivity|split]].
  - rewrite (proj2 (Hfound 8 eq_refl eq_refl) (Sample.reply 8) eq_refl).
    vm_compute. reflexivity.
  - rewrite (proj1 (Hnone eq_refl eq_refl)). vm_compute. reflexivity.
  - rewrite (Hload (errorString "load failed") eq_refl). vm_compute. reflexivity.
Defined.

Lemma C10_edit_frame_witness :
  Command Sample.editCmd = "edit"
  ∧ bot (dispatch Sample.world Sample.editEv Sample.editCmd Sample.recorded).2
    = bot Sample.recorded
  ∧ lastSentAuthors (dispatch Sample.world Sample.editEv Sample.editCmd Sample.recorded).2
    = lastSentAuthors Sample.recorded
  ∧ ∃ rest,
      history (dispatch Sample.world Sample.editEv Sample.editCmd
                 (dispatch Sample.world Sample.editEv Sample.editCmd Sample.recorded).2).2
      = history (dispatch Sample.world Sample.editEv Sample.editCmd Sample.recorded).2
        ++ CallLoad 5 :: CallEditMessage 710342070342254613 8 "fixed" :: rest.
Proof.
  destruct (C10_edit_frame Sample.world Sample.editEv Sample.editCmd Sample.recorded
              eq_refl) as (Hbot & _ & _ & _ & Hmap & _ & Hagain).
  split; [reflexivity|]. split; [exact Hbot|]. split; [exact Hmap|].
  exact (Hagain Sample.editEv Sample.editCmd 8 eq_refl eq_refl eq_refl eq_refl).
Defined.

Lemma C2_rate_limit_witness :
  GoTime.minDuration < MinAnnounceTimeGap (botSettings_ (bot Sample.fresh))
    ≤ GoTime.maxDuration
  ∧ rateLimited (bot Sample.fresh) Sample.epoch = false
  ∧ Command Sample.announceCmd = "announce"
  ∧ MinAnnounceTimeGap (botSettings_ (bot Sample.fresh)) = 4 * GoTime.Hour
  ∧ SendMessage Sample.slow (history Sample.fresh)
      (TargetChannelID (botSettings_ (bot Sample.fresh))) (Body Sample.announceCmd)
    = inl (Sample.reply 0)
  ∧ LastAnnouncedTime
      (bot (dispatch Sample.slow Sample.announceEv Sample.announceCmd Sample.fresh).2)
    = Sample.epoch + 1 * GoTime.Minute
  ∧ time_Now Sample.slow
      (history (Sample.later (Sample.epoch + 1 * GoTime.Minute) 240))
    = (Sample.epoch + 1 * GoTime.Minute) + 3 * GoTime.Hour + 59 * GoTime.Minute
  ∧ history
      (dispatch Sample.slow Sample.announceEv Sample.announceCmd
         (Sample.later (Sample.epoch + 1 * GoTime.Minute) 240)).2
    = history (Sample.later (Sample.epoch + 1 * GoTime.Minute) 240)
      ++ [CallSendMessageReply 9 ("<@5>, " +:+ waitText) 100]
  ∧ time_Now Sample.slow
      (history (Sample.later (Sample.epoch + 1 * GoTime.Minute) 241))
    = (Sample.epoch + 1 * GoTime.Minute) + 4 * GoTime.Hour
  ∧ ∃ rest,
      history
        (dispatch Sample.slow Sample.announceEv Sample.announceCmd
           (Sample.later (Sample.epoch + 1 * GoTime.Minute) 241)).2
      = history (Sample.later (Sample.epoch + 1 * GoTime.Minute) 241)
        ++ CallSendMessage 710342070342254613 "hello" :: rest.
Proof.
  destruct (C2_rate_limit Sample.slow) as (Hiff & _ & Hscene).
  assert (Hgap : GoTime.minDuration
                 < MinAnnounceTimeGap (botSettings_ (bot Sample.fresh))
                 ≤ GoTime.maxDuration) by (vm_compute; split; [reflexivity|discriminate]).
  destruct (Hscene Sample.announceEv Sample.announceCmd Sample.fresh (Sample.reply 0)
              eq_refl eq_refl eq_refl eq_refl) as [Hlast Hnext].
  split; [exact Hgap|].
  split; [apply (proj1 (Hiff (bot Sample.fresh) Sample.epoch Hgap)); vm_compute;
          discriminate|].
  split; [reflexivity|]. split; [reflexivity|]. split; [reflexivity|].
  split; [exact Hlast|].
  split; [vm_compute; reflexivity|].
  split.
  - rewrite (proj1 (Hnext Sample.announceEv Sample.announceCmd
                      (Sample.later (Sample.epoch + 1 * GoTime.Minute) 240)
                      eq_refl eq_refl)) by (vm_compute; reflexivity).
    reflexivity.
  - split; [vm_compute; reflexivity|].
    apply (proj2 (Hnext Sample.announceEv Sample.announceCmd
                    (Sample.later (Sample.epoch + 1 * GoTime.Minute) 241)
                    eq_refl eq_refl)).
    vm_compute. reflexivity.
Defined.


End Witnesses.

(** * Properties beyond the claims *)

(** ** How the loop ends *)

Section LoopShape.

Context `{External} (env : Env).

Lemma turn_result (c : selected) (s : state) : (turn env c s).1 = exitOf c.
Proof.
  destruct c as [| |ev| | |ev]; try reflexivity; unfold turn; unfold_M; cbn.
  - by destruct (trySubscribe env _).
  - by destruct (trySubscribe env _).
  - by destruct (trySubscribe env _).
  - by destruct (onMessage env ev _).
Qed.

Lemma loop_cons (c : selected) (cs : list selected) (s : state) :
  loop env (c :: cs) s =
  match exitOf c with
  | Some err => (Some err, (turn env c s).2)
  | None => loop env cs (turn env c s).2
  end.
Proof.
  cbn. unfold mbind, M_bind. pose proof (turn_result c s) as Hr.
  destruct (turn env c s) as [r s1]. cbn in *. subst r.
  by destruct (exitOf c).
Qed.

(** X1.  The loop returns only from the case of a cancelled context, with
    [context.Canceled], and from the case of the startup timer, with the
    startup error, and it does so at the first such case: what it returns
    is decided by the cases alone.  Whatever the session, the map and the
    clock answer (failed sends, edits, replies, loads and stores included),
    a run without those two cases does not return. *)
Theorem loop_returns_only_on_exit_cases (cs : list selected) (s : state) :
  (loop env cs s).1 = firstExit cs
  ∧ (Forall (λ c, isExit c = false) cs → (loop env cs s).1 = None)
  ∧ (∀ err, (loop env cs s).1 = Some err →
       (err = context_Canceled ∧ ctx_Done ∈ cs)
       ∨ (err = startupError ∧ startupTimeout ∈ cs)).
Proof.
  assert (Hfirst : ∀ s, (loop env cs s).1 = firstExit cs).
  { induction cs as [|c cs IH]; intros s0; [reflexivity|].
    rewrite loop_cons. unfold firstExit. cbn [find].
    destruct c; cbn; try reflexivity; apply IH. }
  split; [apply Hfirst|]. split.
  - intros Hall. rewrite Hfirst. unfold firstExit.
    destruct (find isExit cs) as [c|] eqn:Hf; [|reflexivity].
    apply find_some in Hf as [Hin Hc]. rewrite Forall_forall in Hall.
    apply list_elem_of_In in Hin. rewrite (Hall c Hin) in Hc. discriminate.
  - intros err. rewrite Hfirst. unfold firstExit.
    destruct (find isExit cs) as [c|] eqn:Hf; [|discriminate].
    apply find_some in Hf as [Hin _]. apply list_elem_of_In in Hin.
    destruct c; cbn; intros [= <-]; auto.
Qed.

End LoopShape.

(** ** Frames that know the settings *)

Section Settled.

Context (σ : botSettings) (P : Entry → Prop).

Lemma sameSettings_refl (b : botState) : sameSettings b b.
Proof. reflexivity. Qed.

Lemma sameSettings_trans (b1 b2 b3 : botState) :
  sameSettings b1 b2 → sameSettings b2 b3 → sameSettings b1 b3.
Proof. unfold sameSettings. congruence. Qed.

Lemma settled_ret {A : Type} (a : A) : settled σ P (mret a).
Proof. intros s _. apply grows_refl, sameSettings_refl. Qed.

Lemma settled_answer {A : Type} (f : list Entry → A) : settled σ P (answer f).
Proof. intros s _. apply grows_refl, sameSettings_refl. Qed.

Lemma settled_emit (e : Entry) : P e → settled σ P (emit e).
Proof.
  intros He s _. split; [reflexivity|]. exists [e]. split; [done|]. by constructor.
Qed.

Lemma settled_bind {A B : Type} (m : M A) (k : A → M B) :
  settled σ P m → (∀ a, settled σ P (k a)) → settled σ P (m ≫= k).
Proof.
  intros Hm Hk s Hs. unfold mbind, M_bind. specialize (Hm s Hs).
  destruct (m s) as [a s1]. cbn in Hm.
  eapply grows_trans; [apply sameSettings_trans|exact Hm|].
  apply Hk. destruct Hm as [Hq _]. unfold sameSettings in Hq. congruence.
Qed.

(** What [getBot] returns has the settings of the state. *)
Lemma settled_getBot {B : Type} (k : botState → M B) :
  (∀ b, botSettings_ b = σ → settled σ P (k b)) → settled σ P (getBot ≫= k).
Proof. intros Hk s Hs. exact (Hk (bot s) Hs s Hs). Qed.

Lemma settled_modifyBot (f : botState → botState) :
  (∀ b, botSettings_ (f b) = botSettings_ b) → settled σ P (modifyBot f).
Proof.
  intros Hf s _. split; [apply Hf|]. exists []. cbn. by rewrite app_nil_r.
Qed.

Context `{External} (env : Env).

Lemma settled_Load (k : Z) : P (CallLoad k) → settled σ P (lastSentAuthors_Load env k).
Proof.
  intros Hp s _. unfold lastSentAuthors_Load.
  split; [repeat case_match; reflexivity|].
  exists [CallLoad k]. split; [repeat case_match; done|]. by constructor.
Qed.

Lemma settled_Store (k v : Z) :
  P (CallStore k v) → settled σ P (lastSentAuthors_Store env k v).
Proof.
  intros Hp s _. unfold lastSentAuthors_Store.
  split; [repeat case_match; reflexivity|].
  exists [CallStore k v]. split; [repeat case_match; done|]. by constructor.
Qed.

Lemma settled_onMessage (ev : MessageCreateEvent) :
  (∀ command, P (validCommandEntry ev command)) →
  (∀ command, settled σ P (dispatch env ev command)) →
  settled σ P (onMessage env ev).
Proof.
  intros Hp Hd s Hs. rewrite onMessage_run.
  destruct (parseCommand env (history s) (bot s) ev).1 as [command|];
    [|apply grows_refl, sameSettings_refl].
  eapply grows_trans; [apply sameSettings_trans| |apply Hd; exact Hs].
  split; [reflexivity|]. exists [validCommandEntry ev command].
  split; [done|]. constructor; [apply Hp|constructor].
Qed.

Lemma settled_loop (cs : list selected) :
  (∀ c, settled σ P (turn env c)) → settled σ P (loop env cs).
Proof.
  intros Ht. induction cs as [|c cs IH]; intros s Hs;
    [apply grows_refl, sameSettings_refl|].
  cbn. unfold mbind, M_bind. specialize (Ht c s Hs).
  destruct (turn env c s) as [[err|] s1]; cbn in *; [exact Ht|].
  eapply grows_trans; [apply sameSettings_trans|exact Ht|].
  apply IH. destruct Ht as [Hq _]. unfold sameSettings in Hq. congruence.
Qed.

End Settled.

Ltac settled_step :=
  first
    [ apply settled_ret
    | apply settled_answer
    | apply settled_onMessage
    | apply settled_modifyBot
    | apply settled_Load
    | apply settled_Store
    | apply settled_emit
    | apply settled_getBot; intros ? ?
    | apply settled_bind
    | match goal with
      | |- settled _ _ (match ?x with _ => _ end) => destruct x
      end ];
  try match goal with |- ∀ _, _ => intros ? end.

Ltac settled_all := repeat (keeps_unfold; settled_step).

(** ** What the loop writes, and where *)

Section Scope.

Context `{External} (env : Env).

(** X3.  Along every run of the loop the settings of the bot stay what they
    were, and every message the loop sends or edits is sent or edited in
    the target channel of those settings: the bot writes announcements
    nowhere else. *)
Theorem loop_writes_to_target_channel_only (cs : list selected) (s : state) :
  botSettings_ (bot (loop env cs s).2) = botSettings_ (bot s)
  ∧ ∃ added,
      history (loop env cs s).2 = history s ++ added
      ∧ Forall (targets (TargetChannelID (botSettings_ (bot s)))) added.
Proof.
  enough (Hs : settled (botSettings_ (bot s))
                 (targets (TargetChannelID (botSettings_ (bot s)))) (loop env cs))
    by exact (Hs s eq_refl).
  apply settled_loop. intros c.
  settled_all; cbn; try done; congruence.
Qed.

(** X4.  In the turn on a message, every reply goes to the channel of that
    message, refers to that message and begins with the mention of its
    author followed by a comma and a space; and every [Load] and [Store]
    on the map is under the identifier of that author, so a command reads
    and writes no other author's entry. *)
Theorem message_turn_concerns_its_message (ev : MessageCreateEvent) (s : state) :
  ∃ added,
    history (turn env (msgCh ev) s).2 = history s ++ added
    ∧ Forall (concerns ev) added.
Proof.
  assert (Qr : ∀ b : botState, (λ _ _ : botState, True) b b) by done.
  assert (Qt : ∀ b1 b2 b3 : botState,
             (λ _ _ : botState, True) b1 b2 → (λ _ _ : botState, True) b2 b3 →
             (λ _ _ : botState, True) b1 b3) by done.
  enough (Hk : keeps (concerns ev) (λ _ _, True) (turn env (msgCh ev)))
    by exact (proj2 (Hk s)).
  keeps_all; cbn; try done; eauto.
Qed.

End Scope.

(** ** Subscription and the turns that are not messages *)

Section Subscription.

Context `{External} (env : Env).

Lemma trySubscribe_failed (s : state) (err : error) :
  IsValid (TargetGuildID (bot s)) = false →
  Cabinet_Channel env (history s) (TargetChannelID settings) = inr err →
  trySubscribe env s =
  (false, extend s [CallChannel (TargetChannelID settings); channelFailedEntry err]).
Proof.
  intros Hv Hc. unfold trySubscribe. unfold_M. cbn in Hc |- *. rewrite Hv, Hc. cbn.
  unfold extend, channelFailedEntry. cbn. by rewrite <- app_assoc.
Qed.

Lemma trySubscribe_subscribed (s : state) (ch : Channel) :
  IsValid (TargetGuildID (bot s)) = false →
  Cabinet_Channel env (history s) (TargetChannelID settings) = inl ch →
  trySubscribe env s =
  (true, {| bot := with_TargetGuildID (bot s) (Channel_GuildID ch);
            lastSentAuthors := lastSentAuthors s;
            history :=
              history s
              ++ [CallChannel (TargetChannelID settings);
                  CallSubscribe (Channel_GuildID ch);
                  CallAddSyncHandler;
                  subscribedEntry (bot s) ch] |}).
Proof.
  intros Hv Hc. unfold trySubscribe. unfold_M. cbn in Hc |- *. rewrite Hv, Hc. cbn.
  unfold subscribedEntry. by repeat rewrite <- app_assoc.
Qed.

(** X5.  While no guild is recorded, a subscription attempt looks up the
    target channel of [settings].  If the lookup fails, the attempt returns
    [false] and changes nothing but the interaction (the lookup and a log
    line), so it can be made again.  If the lookup succeeds, the guild of
    that channel is recorded, that guild (and no other) is subscribed to
    once, the message handler is registered once, and the attempt returns
    [true]; when the recorded guild is valid, the next attempt is the no-op
    of a recorded guild. *)
Theorem trySubscribe_outcomes (s : state) :
  IsValid (TargetGuildID (bot s)) = false →
  (∀ err,
     Cabinet_Channel env (history s) (TargetChannelID settings) = inr err →
     trySubscribe env s =
       (false, {| bot := bot s; lastSentAuthors := lastSentAuthors s;
                  history := history s ++ [CallChannel (TargetChannelID settings);
                                           channelFailedEntry err] |}))
  ∧ (∀ ch,
       Cabinet_Channel env (history s) (TargetChannelID settings) = inl ch →
       trySubscribe env s =
         (true, {| bot := with_TargetGuildID (bot s) (Channel_GuildID ch);
                   lastSentAuthors := lastSentAuthors s;
                   history :=
                     history s
                     ++ [CallChannel (TargetChannelID settings);
                         CallSubscribe (Channel_GuildID ch);
                         CallAddSyncHandler;
                         subscribedEntry (bot s) ch] |})
       ∧ (IsValid (Channel_GuildID ch) = true →
          trySubscribe env (trySubscribe env s).2 = (true, (trySubscribe env s).2))).
Proof.
  intros Hv. split.
  - intros err Hc. by rewrite (trySubscribe_failed s err Hv Hc).
  - intros ch Hc. rewrite (trySubscribe_subscribed s ch Hv Hc). split; [reflexivity|].
    intros Hg. cbn. unfold trySubscribe. unfold_M. cbn. by rewrite Hg.
Qed.

Lemma trySubscribe_quiet (s : state) :
  lastSentAuthors (trySubscribe env s).2 = lastSentAuthors s
  ∧ LastAnnouncedTime (bot (trySubscribe env s).2) = LastAnnouncedTime (bot s)
  ∧ SelfID (bot (trySubscribe env s).2) = SelfID (bot s)
  ∧ ∃ added,
      history (trySubscribe env s).2 = history s ++ added
      ∧ Forall (λ e, isOutbound e = false) added.
Proof.
  destruct (IsValid (TargetGuildID (bot s))) eqn:Hv.
  - unfold trySubscribe. unfold_M. cbn. rewrite Hv. cbn.
    do 3 (split; [reflexivity|]). exists []. by rewrite app_nil_r.
  - destruct (Cabinet_Channel env (history s) (TargetChannelID settings))
      as [ch|err] eqn:Hc.
    + rewrite (trySubscribe_subscribed s ch Hv Hc). cbn.
      do 3 (split; [reflexivity|]). eexists. split; [reflexivity|].
      by repeat constructor.
    + rewrite (trySubscribe_failed s err Hv Hc). cbn.
      do 3 (split; [reflexivity|]). eexists. split; [reflexivity|].
      by repeat constructor.
Qed.

(** X6.  A turn on any case but a message (ready, ready-supplemental,
    guild-create, cancellation, the startup timer) leaves the map and
    [LastAnnouncedTime] as they were, and sends, edits and replies nothing
    and does not touch the map: coming online again neither resets the rate
    limit nor forgets an announcement.  Only a ready event changes
    [SelfID], to the identifier of the user it carries. *)
Theorem other_turns_are_quiet (c : selected) (s : state) :
  (∀ ev, c ≠ msgCh ev) →
  lastSentAuthors (turn env c s).2 = lastSentAuthors s
  ∧ LastAnnouncedTime (bot (turn env c s).2) = LastAnnouncedTime (bot s)
  ∧ SelfID (bot (turn env c s).2)
    = match c with
      | readyCh ev => User_ID (Ready_User ev)
      | _ => SelfID (bot s)
      end
  ∧ ∃ added,
      history (turn env c s).2 = history s ++ added
      ∧ Forall (λ e, isOutbound e = false) added.
Proof.
  intros Hc.
  destruct c as [| |ev| | |ev].
  - do 3 (split; [reflexivity|]). exists [Recv ctx_Done]. by repeat constructor.
  - do 3 (split; [reflexivity|]). exists [Recv startupTimeout]. by repeat constructor.
  - unfold turn. unfold_M. cbn.
    match goal with |- context [trySubscribe env ?s0] =>
      destruct (trySubscribe_quiet s0) as (Hm & Hl & Hi & added & Hh & Hf);
      destruct (trySubscribe env s0) as [r s1] end.
    cbn in *. rewrite Hm, Hl, Hi, Hh. do 3 (split; [reflexivity|]).
    eexists. rewrite <- !app_assoc. split; [reflexivity|].
    cbn. by repeat constructor.
  - unfold turn. unfold_M. cbn.
    match goal with |- context [trySubscribe env ?s0] =>
      destruct (trySubscribe_quiet s0) as (Hm & Hl & Hi & added & Hh & Hf);
      destruct (trySubscribe env s0) as [r s1] end.
    cbn in *. rewrite Hm, Hl, Hi, Hh. do 3 (split; [reflexivity|]).
    eexists. rewrite <- !app_assoc. split; [reflexivity|].
    cbn. by repeat constructor.
  - unfold turn. unfold_M. cbn.
    match goal with |- context [trySubscribe env ?s0] =>
      destruct (trySubscribe_quiet s0) as (Hm & Hl & Hi & added & Hh & Hf);
      destruct (trySubscribe env s0) as [r s1] end.
    cbn in *. rewrite Hm, Hl, Hi, Hh. do 3 (split; [reflexivity|]).
    eexists. rewrite <- !app_assoc. split; [reflexivity|].
    cbn. by repeat constructor.
  - by destruct (Hc ev).
Qed.

End Subscription.

(** ** The rate limit over time *)

Section Sequences.

Context `{External} (env : Env).

Lemma Sub_monotone (t t' u : GoTime.Time) : t ≤ t' → GoTime.Sub t u ≤ GoTime.Sub t' u.
Proof.
  intros Ht. unfold GoTime.Sub, GoTime.minDuration, GoTime.maxDuration.
  change (2 ^ 63) with 9223372036854775808.
  destruct (Z.ltb_spec (t - u) (- (9223372036854775808)));
    destruct (Z.ltb_spec (t' - u) (- (9223372036854775808)));
    destruct (Z.ltb_spec (9223372036854775808 - 1) (t - u));
    destruct (Z.ltb_spec (9223372036854775808 - 1) (t' - u)); lia.
Qed.

(** X8.  The rate limit only opens with time: if an announce would be let
    through at one clock reading, it would be let through at every later
    one (whatever the gap and however far apart the readings, the
    difference being clamped, not wrapped); and if it is held back at one
    reading, it is held back at every earlier one. *)
Theorem rate_limit_opens_with_time (b : botState) (now now' : GoTime.Time) :
  now ≤ now' →
  (rateLimited b now = false → rateLimited b now' = false)
  ∧ (rateLimited b now' = true → rateLimited b now = true).
Proof.
  intros Ht. pose proof (Sub_monotone now now' (LastAnnouncedTime b) Ht) as Hm.
  unfold rateLimited, GoTime.Since.
  destruct (Z.ltb_spec (GoTime.Sub now (LastAnnouncedTime b))
              (MinAnnounceTimeGap (botSettings_ b)));
    destruct (Z.ltb_spec (GoTime.Sub now' (LastAnnouncedTime b))
                (MinAnnounceTimeGap (botSettings_ b)));
    split; intros; try done; lia.
Qed.

End Sequences.

(** ** What a parsed command says about its message *)

Section ParsedCommands.

Context `{External} (env : Env).

Lemma append_nil_r (s : string) : s +:+ EmptyString = s.
Proof. induction s as [|c s IH]; [reflexivity|]. by rewrite append_cons, IH. Qed.

Lemma append_assoc (a b c : string) : (a +:+ b) +:+ c = a +:+ (b +:+ c).
Proof. induction a as [|x a IH]; [reflexivity|]. by rewrite !append_cons, IH. Qed.

Lemma noLF_Cut (s : string) : noLF s = true ↔ (GoStrings.Cut s GoStrings.LF).2 = false.
Proof.
  induction s as [|c s IH]; [done|].
  rewrite Cut_cons. unfold GoStrings.HasPrefix, GoStrings.LF. cbn [String.prefix noLF].
  destruct (ascii_dec "010" c) as [<-|Hc].
  - cbn. by destruct s.
  - assert (Hne : Ascii.eqb c "010" = false) by (apply Ascii.eqb_neq; congruence).
    rewrite Hne. cbn [negb andb]. rewrite IH. unfold GoStrings.LF.
    by destruct (GoStrings.Cut s (String "010" "")) as [[? ?] ?].
Qed.

Lemma noLF_app (a b : string) : noLF (a +:+ b) = noLF a && noLF b.
Proof.
  induction a as [|c a IH]; [reflexivity|].
  rewrite append_cons. cbn [noLF]. rewrite IH. by rewrite andb_assoc.
Qed.

(** [strings.Cut] at the line feed: the parts put the text back together,
    and the first part holds no line feed. *)
Lemma Cut_LF_found (s before after : string) :
  GoStrings.Cut s GoStrings.LF = (before, after, true) →
  s = before +:+ GoStrings.LF +:+ after ∧ noLF before = true.
Proof.
  revert before. induction s as [|c s IH]; intros before; [discriminate|].
  rewrite Cut_cons. unfold GoStrings.HasPrefix, GoStrings.LF. cbn [String.prefix].
  destruct (ascii_dec "010" c) as [<-|Hc].
  - destruct s; cbn; intros [= <- <-]; done.
  - destruct (GoStrings.Cut s (String "010" "")) as [[b a] f] eqn:Hcut.
    intros [= <- <- ->]. destruct (IH b Hcut) as [-> Hb].
    split; [reflexivity|]. cbn [noLF].
    assert (Hne : Ascii.eqb c "010" = false) by (apply Ascii.eqb_neq; congruence).
    by rewrite Hne, Hb.
Qed.

Lemma HasPrefix_TrimPrefix (s p : string) :
  GoStrings.HasPrefix s p = true → s = p +:+ GoStrings.TrimPrefix s p.
Proof.
  unfold GoStrings.TrimPrefix. intros Hp. rewrite Hp.
  unfold GoStrings.HasPrefix in Hp. revert s Hp.
  induction p as [|c p IH]; intros s Hp; [reflexivity|].
  destruct s as [|d s]; [discriminate|]. cbn in Hp.
  destruct (ascii_dec c d) as [<-|]; [|discriminate].
  rewrite append_cons. cbn. f_equal. by apply IH.
Qed.

(** A returned command, with the checks it has passed. *)
Lemma parseCommand_some (dsession : list Entry) (b : botState)
    (msg : MessageCreateEvent) (command : parsedCommand) :
  (parseCommand env dsession b msg).1 = Some command →
  ∃ member header,
    Member_ msg = Some member
    ∧ GuildID (Message_ msg) = TargetGuildID b
    ∧ Z.land (MessageMentions env dsession (Message_ msg)) ningen_MessageMentions ≠ 0
    ∧ hasAllowedRole b member = true
    ∧ GoStrings.Cut (Content (Message_ msg)) GoStrings.LF = (header, Body command, true)
    ∧ GoStrings.HasPrefix header (Mention (SelfID b)) = true
    ∧ Command command
      = GoStrings.ToLower
          (GoStrings.TrimSpace (GoStrings.TrimPrefix header (Mention (SelfID b))))
    ∧ Command command ≠ ""
    ∧ Body command ≠ "".
Proof.
  unfold parseCommand. intros Hp.
  destruct (Member_ msg) as [member|] eqn:Hm; [|discriminate].
  destruct (Z.eqb_spec (GuildID (Message_ msg)) (TargetGuildID b)) as [Hg|];
    [|discriminate].
  cbn [negb] in Hp.
  destruct (Z.eqb_spec (Z.land (MessageMentions env dsession (Message_ msg))
                          ningen_MessageMentions) 0) as [|Hf]; [discriminate|].
  destruct (hasAllowedRole b member) eqn:Hr; [|discriminate]. cbn [negb] in Hp.
  destruct (GoStrings.Cut (Content (Message_ msg)) GoStrings.LF)
    as [[header body] found] eqn:Hcut.
  destruct found; [|discriminate]. cbn [negb] in Hp.
  destruct (GoStrings.HasPrefix header (Mention (SelfID b))) eqn:Hpre; [|discriminate].
  cbn [negb] in Hp.
  destruct (String.eqb_spec
              (GoStrings.ToLower
                 (GoStrings.TrimSpace
                    (GoStrings.TrimPrefix header (Mention (SelfID b))))) "")
    as [|Hcmd]; [discriminate|].
  destruct (String.eqb_spec body "") as [|Hbody]; [discriminate|].
  cbn in Hp. injection Hp as <-. cbn.
  exists member, header. done.
Qed.

(** X9.  A command is returned only for an authorized message, and it can be
    read back off the content: the content is the bot's mention, the rest of
    the header, the first line feed of the content and the body, in this
    order; the body is returned as it stands (later line feeds included),
    the command is the rest of the header trimmed and lowered, and neither
    is empty. *)
Theorem parsed_command_reads_off_content (dsession : list Entry) (b : botState)
    (msg : MessageCreateEvent) (command : parsedCommand) :
  (parseCommand env dsession b msg).1 = Some command →
  authorized env dsession b msg
  ∧ ∃ tail,
      Content (Message_ msg)
      = Mention (SelfID b) +:+ tail +:+ GoStrings.LF +:+ Body command
      ∧ noLF (Mention (SelfID b) +:+ tail) = true
      ∧ Command command = GoStrings.ToLower (GoStrings.TrimSpace tail)
      ∧ Command command ≠ ""
      ∧ Body command ≠ "".
Proof.
  intros Hp.
  destruct (parseCommand_some dsession b msg command Hp)
    as (member & header & Hm & Hg & Hf & Hr & Hcut & Hpre & Hcmd & Hne & Hbody).
  split.
  - exists member. repeat split; try done. by apply hasAllowedRole_spec.
  - exists (GoStrings.TrimPrefix header (Mention (SelfID b))).
    apply Cut_LF_found in Hcut as [Hc Hn].
    rewrite <- append_assoc, <- (HasPrefix_TrimPrefix _ _ Hpre). done.
Qed.

End ParsedCommands.

(** ** Case and padding of a command on ASCII text *)

Section Normal.

Context `{External} (env : Env).

Ltac by_byte c := destruct c as [[] [] [] [] [] [] [] []]; vm_compute; reflexivity.

Lemma asciiSpace_lowerByte (c : ascii) :
  GoStrings.asciiSpace (GoStrings.lowerByte c) = GoStrings.asciiSpace c.
Proof. by_byte c. Qed.

Lemma isUpper_lowerByte (c : ascii) : GoStrings.isUpper (GoStrings.lowerByte c) = false.
Proof. by_byte c. Qed.

Lemma below_lowerByte (c : ascii) :
  (GoStrings.byte (GoStrings.lowerByte c) <? GoStrings.RuneSelf)
  = (GoStrings.byte c <? GoStrings.RuneSelf).
Proof. by_byte c. Qed.

Lemma LF_lowerByte (c : ascii) : Ascii.eqb (GoStrings.lowerByte c) "010" = Ascii.eqb c "010".
Proof. by_byte c. Qed.

Lemma lowerByte_id (c : ascii) : GoStrings.isUpper c = false → GoStrings.lowerByte c = c.
Proof. unfold GoStrings.lowerByte. by intros ->. Qed.

Lemma asciiSpace_below (c : ascii) :
  GoStrings.asciiSpace c = true → (GoStrings.byte c <? GoStrings.RuneSelf) = true.
Proof. destruct c as [[] [] [] [] [] [] [] []]; vm_compute; congruence. Qed.

#[local] Abbreviation lower := (GoStrings.mapBytes GoStrings.lowerByte).

Lemma lower_id (s : string) : GoStrings.hasUpper s = false → lower s = s.
Proof.
  induction s as [|c s IH]; [reflexivity|]. cbn.
  intros [Hc Hs]%orb_false_elim. by rewrite (lowerByte_id c Hc), IH.
Qed.

Lemma hasUpper_lower (s : string) : GoStrings.hasUpper (lower s) = false.
Proof.
  induction s as [|c s IH]; [reflexivity|]. cbn. by rewrite isUpper_lowerByte, IH.
Qed.

Lemma isASCII_lower (s : string) : GoStrings.isASCII (lower s) = GoStrings.isASCII s.
Proof.
  induction s as [|c s IH]; [reflexivity|]. cbn. by rewrite below_lowerByte, IH.
Qed.

Lemma noLF_lower (s : string) : noLF (lower s) = noLF s.
Proof.
  induction s as [|c s IH]; [reflexivity|]. cbn. by rewrite LF_lowerByte, IH.
Qed.

Lemma isASCII_app (a b : string) :
  GoStrings.isASCII (a +:+ b) = GoStrings.isASCII a && GoStrings.isASCII b.
Proof.
  induction a as [|c a IH]; [reflexivity|].
  rewrite append_cons. cbn. by rewrite IH, andb_assoc.
Qed.

Lemma isASCII_trimLeft (s : string) :
  GoStrings.isASCII s = true → GoStrings.isASCII (GoStrings.trimLeft s) = true.
Proof.
  induction s as [|c s IH]; [done|]. cbn.
  intros [Hc Hs]%andb_prop. destruct (GoStrings.asciiSpace c); [by apply IH|].
  cbn. by rewrite Hc, Hs.
Qed.

Lemma isASCII_trimRight (s : string) :
  GoStrings.isASCII s = true → GoStrings.isASCII (GoStrings.trimRight s) = true.
Proof.
  induction s as [|c s IH]; [done|]. cbn.
  intros [Hc Hs]%andb_prop. specialize (IH Hs).
  destruct (GoStrings.trimRight s) as [|d r].
  - destruct (GoStrings.asciiSpace c); cbn; [done|]. by rewrite Hc.
  - cbn in *. by rewrite Hc, IH.
Qed.

Lemma isASCII_lastByte (s : string) (c : ascii) :
  GoStrings.isASCII s = true → GoStrings.lastByte s = Some c →
  (GoStrings.byte c <? GoStrings.RuneSelf) = true.
Proof.
  induction s as [|d s IH]; [done|]. cbn.
  intros [Hd Hs]%andb_prop. destruct s as [|e s]; [by intros [= <-]|].
  by apply IH.
Qed.

(** On ASCII text [strings.TrimSpace] and [strings.ToLower] stay on their
    fast paths. *)
Lemma TrimSpace_ascii (s : string) :
  GoStrings.isASCII s = true →
  GoStrings.TrimSpace s = GoStrings.trimRight (GoStrings.trimLeft s).
Proof.
  intros Hs. unfold GoStrings.TrimSpace.
  pose proof (isASCII_trimLeft s Hs) as Hl.
  destruct (GoStrings.trimLeft s) as [|c t] eqn:Ht; [reflexivity|].
  assert (Hc : (GoStrings.byte c <? GoStrings.RuneSelf) = true)
    by (cbn in Hl; by apply andb_prop in Hl as [? _]).
  destruct (Z.leb_spec GoStrings.RuneSelf (GoStrings.byte c)) as [Hge|_];
    [apply Z.ltb_lt in Hc; lia|].
  cbn zeta. pose proof (isASCII_trimRight _ Hl) as Hr.
  destruct (GoStrings.lastByte (GoStrings.trimRight (String c t))) as [d|] eqn:Hd;
    [|reflexivity].
  pose proof (isASCII_lastByte _ d Hr Hd) as Hlt.
  destruct (Z.leb_spec GoStrings.RuneSelf (GoStrings.byte d)) as [Hge|_];
    [apply Z.ltb_lt in Hlt; lia|reflexivity].
Qed.

Lemma ToLower_ascii (s : string) :
  GoStrings.isASCII s = true → GoStrings.ToLower s = lower s.
Proof.
  intros Hs. unfold GoStrings.ToLower. rewrite Hs.
  destruct (GoStrings.hasUpper s) eqn:Hu; [reflexivity|]. by rewrite lower_id.
Qed.

Lemma trimLeft_lower (s : string) :
  GoStrings.trimLeft (lower s) = lower (GoStrings.trimLeft s).
Proof.
  induction s as [|c s IH]; [reflexivity|]. cbn. rewrite asciiSpace_lowerByte.
  by destruct (GoStrings.asciiSpace c).
Qed.

Lemma trimRight_lower (s : string) :
  GoStrings.trimRight (lower s) = lower (GoStrings.trimRight s).
Proof.
  induction s as [|c s IH]; [reflexivity|]. cbn. rewrite IH, asciiSpace_lowerByte.
  destruct (GoStrings.trimRight s); cbn; [|reflexivity].
  by destruct (GoStrings.asciiSpace c).
Qed.

(** The command of an ASCII header: trim, then lower, or lower, then trim. *)
Lemma normal_ascii (s : string) :
  GoStrings.isASCII s = true →
  GoStrings.ToLower (GoStrings.TrimSpace s)
  = GoStrings.trimRight (GoStrings.trimLeft (lower s)).
Proof.
  intros Hs. rewrite (TrimSpace_ascii s Hs).
  rewrite ToLower_ascii by by apply isASCII_trimRight, isASCII_trimLeft.
  by rewrite trimLeft_lower, trimRight_lower.
Qed.

Lemma firstByte_trimLeft (s : string) (c : ascii) :
  firstByte (GoStrings.trimLeft s) = Some c → GoStrings.asciiSpace c = false.
Proof.
  induction s as [|d s IH]; [done|]. cbn.
  destruct (GoStrings.asciiSpace d) eqn:Hd; [exact IH|]. by intros [= <-].
Qed.

Lemma lastByte_trimRight (s : string) (c : ascii) :
  GoStrings.lastByte (GoStrings.trimRight s) = Some c → GoStrings.asciiSpace c = false.
Proof.
  induction s as [|d s IH]; [done|]. cbn.
  destruct (GoStrings.trimRight s) as [|e r].
  - destruct (GoStrings.asciiSpace d) eqn:Hd; [done|]. by intros [= <-].
  - exact IH.
Qed.

Lemma firstByte_trimRight (s : string) (c : ascii) :
  firstByte (GoStrings.trimRight s) = Some c → firstByte s = Some c.
Proof.
  destruct s as [|d s]; [done|]. cbn.
  destruct (GoStrings.trimRight s); [|done].
  by destruct (GoStrings.asciiSpace d).
Qed.

Lemma hasUpper_trimLeft (s : string) :
  GoStrings.hasUpper s = false → GoStrings.hasUpper (GoStrings.trimLeft s) = false.
Proof.
  induction s as [|c s IH]; [done|]. cbn.
  intros [Hc Hs]%orb_false_elim. destruct (GoStrings.asciiSpace c); [by apply IH|].
  cbn. by rewrite Hc, Hs.
Qed.

Lemma hasUpper_trimRight (s : string) :
  GoStrings.hasUpper s = false → GoStrings.hasUpper (GoStrings.trimRight s) = false.
Proof.
  induction s as [|c s IH]; [done|]. cbn.
  intros [Hc Hs]%orb_false_elim. specialize (IH Hs).
  destruct (GoStrings.trimRight s) as [|d r].
  - destruct (GoStrings.asciiSpace c); cbn; [done|]. by rewrite Hc.
  - cbn in *. by rewrite Hc, IH.
Qed.

(** X10.  On ASCII text the command does not depend on the case of the
    header: two authorized messages to the same bot whose headers continue
    the mention with ASCII text that is equal up to the case of its letters,
    and whose bodies are equal, are parsed alike. *)
Theorem command_ignores_ascii_case (dsession : list Entry) (b : botState)
    (msg1 msg2 : MessageCreateEvent) (tail1 tail2 body : string) :
  authorized env dsession b msg1 →
  authorized env dsession b msg2 →
  noLF (Mention (SelfID b)) = true →
  Content (Message_ msg1) = Mention (SelfID b) +:+ tail1 +:+ GoStrings.LF +:+ body →
  Content (Message_ msg2) = Mention (SelfID b) +:+ tail2 +:+ GoStrings.LF +:+ body →
  GoStrings.isASCII tail1 = true →
  noLF tail1 = true →
  lower tail1 = lower tail2 →
  parseCommand env dsession b msg1 = parseCommand env dsession b msg2.
Proof.
  intros Ha1 Ha2 Hm Hc1 Hc2 Has1 Hn1 Heq.
  assert (Has2 : GoStrings.isASCII tail2 = true)
    by by rewrite <- isASCII_lower, <- Heq, isASCII_lower.
  assert (Hn2 : noLF tail2 = true) by by rewrite <- noLF_lower, <- Heq, noLF_lower.
  assert (Hcut : ∀ tail, noLF tail = true →
            GoStrings.Cut (tail +:+ GoStrings.LF +:+ body) GoStrings.LF
            = (tail, body, true)).
  { intros tail Hn. rewrite Cut_LF_app by by apply noLF_Cut.
    unfold GoStrings.LF at 1. rewrite append_cons, append_nil, Cut_cons.
    unfold GoStrings.HasPrefix, GoStrings.LF. cbn [String.prefix].
    destruct (ascii_dec "010" "010") as [_|Hne]; [|done].
    destruct body; cbn; by rewrite append_nil_r. }
  apply noLF_Cut in Hm.
  rewrite (parseCommand_after_mention env dsession b msg1 _ tail1 body Ha1 Hm Hc1
             (Hcut tail1 Hn1)).
  rewrite (parseCommand_after_mention env dsession b msg2 _ tail2 body Ha2 Hm Hc2
             (Hcut tail2 Hn2)).
  by rewrite (normal_ascii tail1 Has1), (normal_ascii tail2 Has2), Heq.
Qed.

(** X11.  The command of a message with ASCII content is in normal form: it
    holds no upper-case letter and neither begins nor ends with ASCII white
    space, so that the comparison with [announce] and [edit] sees neither
    case nor padding. *)
Theorem ascii_command_is_normal (dsession : list Entry) (b : botState)
    (msg : MessageCreateEvent) (command : parsedCommand) :
  (parseCommand env dsession b msg).1 = Some command →
  GoStrings.isASCII (Content (Message_ msg)) = true →
  GoStrings.hasUpper (Command command) = false
  ∧ (∀ c, firstByte (Command command) = Some c → GoStrings.asciiSpace c = false)
  ∧ (∀ c, GoStrings.lastByte (Command command) = Some c → GoStrings.asciiSpace c = false).
Proof.
  intros Hp Hascii.
  destruct (parseCommand_some env dsession b msg command Hp)
    as (_ & header & _ & _ & _ & _ & Hcut & Hpre & Hcmd & _).
  apply Cut_LF_found in Hcut as [Hc _].
  rewrite Hc, (HasPrefix_TrimPrefix _ _ Hpre), !isASCII_app in Hascii.
  apply andb_prop in Hascii as [Hascii _]. apply andb_prop in Hascii as [_ Ht].
  rewrite (normal_ascii _ Ht) in Hcmd. rewrite Hcmd.
  split; [|split].
  - apply hasUpper_trimRight, hasUpper_trimLeft, hasUpper_lower.
  - intros c Hf. apply firstByte_trimRight in Hf. by apply firstByte_trimLeft in Hf.
  - intros c Hl. by apply lastByte_trimRight in Hl.
Qed.

End Normal.

(** ** What a message turn changes, and how it answers *)

Section MessageTurns.

Context `{External} (env : Env).

Lemma with_LastAnnouncedTime_same (b : botState) :
  with_LastAnnouncedTime b (LastAnnouncedTime b) = b.
Proof. by destruct b. Qed.

Lemma countReplies_app (es fs : list Entry) :
  countReplies (es ++ fs) = (countReplies es + countReplies fs)%nat.
Proof. unfold countReplies. by rewrite filter_app, length_app. Qed.

Lemma countReplies_replyEntries (h : list Entry) (ev : MessageCreateEvent) (text : string) :
  countReplies (replyEntries env h ev text) = 1%nat.
Proof.
  unfold replyEntries. by destruct (SendMessageReply env _ _ _ _).
Qed.

(** X12.  Every dispatched [announce] is answered by exactly one reply, be it
    held back by the rate limit, failed or sent.  A dispatched [edit] is
    answered by exactly one reply unless the message was edited, and then
    by none.  A reply that cannot be delivered is not tried again. *)
Theorem commands_are_answered_once (ev : MessageCreateEvent) (command : parsedCommand)
    (s : state) :
  let author := User_ID (Author (Message_ ev)) in
  let target := TargetChannelID (botSettings_ (bot s)) in
  (Command command = "announce" →
   ∃ added,
     history (dispatch env ev command s).2 = history s ++ added
     ∧ countReplies added = 1%nat)
  ∧ (Command command = "edit" →
     ∃ added,
       history (dispatch env ev command s).2 = history s ++ added
       ∧ countReplies added
         = match Load_err env (history s) author, lastSentAuthors s !! author with
           | None, Some lastSent =>
               match EditMessage env (history s ++ [CallLoad author]) target lastSent
                       (Body command) with
               | inl _ => 0%nat
               | inr _ => 1%nat
               end
           | _, _ => 1%nat
           end).
Proof.
  intros author target. split; intros Hc.
  - rewrite (dispatch_announce _ _ _ Hc).
    destruct (rateLimited (bot s) (time_Now env (history s))) eqn:Hr.
    + rewrite (announce_limited _ _ _ _ Hr). eexists. split; [reflexivity|].
      apply countReplies_replyEntries.
    + destruct (SendMessage env (history s) target (Body command)) as [sent|err] eqn:Hs.
      * rewrite (announce_sent _ _ _ _ sent Hr Hs). cbn.
        eexists. rewrite <- !app_assoc. split; [reflexivity|].
        rewrite !countReplies_app, countReplies_replyEntries.
        by destruct (Store_err env _ _ _).
      * rewrite (announce_send_failed _ _ _ _ err Hr Hs). eexists.
        split; [reflexivity|].
        by rewrite countReplies_app, countReplies_replyEntries.
  - rewrite (dispatch_edit _ _ _ Hc).
    destruct (Load_err env (history s) author) as [err|] eqn:Hl.
    + rewrite (edit_load_failed _ _ _ _ err Hl). eexists. split; [reflexivity|].
      by rewrite countReplies_app, countReplies_replyEntries.
    + destruct (lastSentAuthors s !! author) as [lastSent|] eqn:Hf.
      * rewrite (edit_found _ _ _ _ lastSent Hl Hf). eexists. split; [reflexivity|].
        fold author target. rewrite countReplies_app.
        destruct (EditMessage env _ target lastSent (Body command)); [reflexivity|].
        change (countReplies (?e :: ?l)) with (countReplies l).
        by rewrite countReplies_replyEntries.
      * rewrite (edit_not_found _ _ _ _ Hl Hf). eexists. split; [reflexivity|].
        change (countReplies (?e :: ?l)) with (countReplies l).
        by rewrite countReplies_replyEntries.
Qed.

(** X13.  A turn on a message never changes [SelfID], [TargetGuildID] or the
    settings.  It changes [LastAnnouncedTime] or the map only when it has
    sent an announcement: either both are as before, or the turn called
    [SendMessage] on the target channel and the call succeeded. *)
Theorem message_turn_changes (ev : MessageCreateEvent) (s : state) :
  let s' := (turn env (msgCh ev) s).2 in
  let target := TargetChannelID (botSettings_ (bot s)) in
  (∃ t, bot s' = with_LastAnnouncedTime (bot s) t)
  ∧ ((lastSentAuthors s' = lastSentAuthors s
      ∧ LastAnnouncedTime (bot s') = LastAnnouncedTime (bot s))
     ∨ ∃ before body sent after,
         history s' = history s ++ before ++ CallSendMessage target body :: after
         ∧ SendMessage env (history s ++ before) target body = inl sent).
Proof.
  intros s' target. subst s'. rewrite turn_msgCh.
  assert (Hsame : ∀ added,
            (∃ t, bot (extend s added) = with_LastAnnouncedTime (bot s) t)
            ∧ ((lastSentAuthors (extend s added) = lastSentAuthors s
                ∧ LastAnnouncedTime (bot (extend s added)) = LastAnnouncedTime (bot s))
               ∨ ∃ before body sent after,
                   history (extend s added)
                   = history s ++ before ++ CallSendMessage target body :: after
                   ∧ SendMessage env (history s ++ before) target body = inl sent)).
  { intros added. split; [|by left].
    exists (LastAnnouncedTime (bot s)). by rewrite with_LastAnnouncedTime_same. }
  destruct (parseCommand env _ (bot s) ev).1 as [command|]; [|apply Hsame].
  cbn [snd]. unfold dispatch.
  destruct (String.eqb (Command command) "announce").
  - destruct (rateLimited (bot (extend s [Recv (msgCh ev); validCommandEntry ev command]))
                (time_Now env
                   (history (extend s [Recv (msgCh ev); validCommandEntry ev command]))))
      eqn:Hr.
    + rewrite (announce_limited _ _ _ _ Hr), extend_extend. apply Hsame.
    + destruct (SendMessage env
                  (history (extend s [Recv (msgCh ev); validCommandEntry ev command]))
                  target (Body command)) as [sent|err] eqn:Hs.
      * rewrite (announce_sent _ _ _ _ sent Hr Hs). cbn. split; [eauto|]. right.
        exists [Recv (msgCh ev); validCommandEntry ev command], (Body command), sent.
        eexists. split; [|exact Hs].
        rewrite <- !app_assoc. cbn. reflexivity.
      * rewrite (announce_send_failed _ _ _ _ err Hr Hs), extend_extend. apply Hsame.
  - destruct (String.eqb (Command command) "edit"); [|apply Hsame].
    destruct (edit_extends env ev command
                (extend s [Recv (msgCh ev); validCommandEntry ev command]))
      as [added ->].
    cbn [snd]. rewrite extend_extend. apply Hsame.
Qed.

End MessageTurns.

(** ** One registration of the message handler *)

Section Registration.

Context `{External} (env : Env).

Lemma countHandlers_app (es fs : list Entry) :
  countHandlers (es ++ fs) = (countHandlers es + countHandlers fs)%nat.
Proof. unfold countHandlers. by rewrite filter_app, length_app. Qed.

Lemma countHandlers_none (es : list Entry) :
  Forall (λ e, isSubscription e = false) es → countHandlers es = 0%nat.
Proof.
  induction 1 as [|e es He _ IH]; [reflexivity|].
  change (e :: es) with ([e] ++ es). rewrite countHandlers_app, IH.
  by destruct e.
Qed.

Lemma message_turn_no_subscription (ev : MessageCreateEvent) (s : state) :
  grows (λ e, isSubscription e = false)
        (λ b b', TargetGuildID b' = TargetGuildID b) s (turn env (msgCh ev) s).2.
Proof.
  assert (Qr : ∀ b : botState,
             (λ b b' : botState, TargetGuildID b' = TargetGuildID b) b b) by done.
  assert (Qt : ∀ b1 b2 b3 : botState,
             (λ b b' : botState, TargetGuildID b' = TargetGuildID b) b1 b2 →
             (λ b b' : botState, TargetGuildID b' = TargetGuildID b) b2 b3 →
             (λ b b' : botState, TargetGuildID b' = TargetGuildID b) b1 b3)
    by (cbn; congruence).
  revert s.
  enough (Hk : keeps (λ e, isSubscription e = false)
                 (λ b b', TargetGuildID b' = TargetGuildID b) (turn env (msgCh ev)))
    by exact Hk.
  keeps_all; done.
Qed.

(** What a subscription attempt registers, from any state. *)
Lemma trySubscribe_registers (s : state) :
  (∀ h id ch, Cabinet_Channel env h id = inl ch → IsValid (Channel_GuildID ch) = true) →
  ∃ added,
    history (trySubscribe env s).2 = history s ++ added
    ∧ ((countHandlers added = 0%nat
        ∧ TargetGuildID (bot (trySubscribe env s).2) = TargetGuildID (bot s))
       ∨ (countHandlers added = 1%nat
          ∧ IsValid (TargetGuildID (bot s)) = false
          ∧ IsValid (TargetGuildID (bot (trySubscribe env s).2)) = true)).
Proof.
  intros Hgood. destruct (IsValid (TargetGuildID (bot s))) eqn:Hv.
  - rewrite (trySubscribe_valid env s Hv). exists [].
    split; [by rewrite app_nil_r|]. by left.
  - destruct (Cabinet_Channel env (history s) (TargetChannelID settings))
      as [ch|err] eqn:Hc.
    + rewrite (trySubscribe_subscribed env s ch Hv Hc). eexists.
      split; [reflexivity|]. right. cbn. split; [reflexivity|]. split; [done|].
      by apply (Hgood _ _ _ Hc).
    + rewrite (trySubscribe_failed env s err Hv Hc). eexists.
      split; [reflexivity|]. by left.
Qed.

Lemma turn_registers (c : selected) (s : state) :
  (∀ h id ch, Cabinet_Channel env h id = inl ch → IsValid (Channel_GuildID ch) = true) →
  ∃ added,
    history (turn env c s).2 = history s ++ added
    ∧ ((countHandlers added = 0%nat
        ∧ TargetGuildID (bot (turn env c s).2) = TargetGuildID (bot s))
       ∨ (countHandlers added = 1%nat
          ∧ IsValid (TargetGuildID (bot s)) = false
          ∧ IsValid (TargetGuildID (bot (turn env c s).2)) = true)).
Proof.
  intros Hgood. destruct c as [| |ev| | |ev].
  - exists [Recv ctx_Done]. split; [reflexivity|]. by left.
  - exists [Recv startupTimeout]. split; [reflexivity|]. by left.
  - unfold turn. unfold_M. cbn.
    match goal with |- context [trySubscribe env ?s0] =>
      destruct (trySubscribe_registers s0 Hgood) as (added & Hh & Hcase);
      destruct (trySubscribe env s0) as [r s1] end.
    cbn in *. rewrite Hh. eexists. rewrite <- !app_assoc. split; [reflexivity|].
    rewrite !countHandlers_app. exact Hcase.
  - unfold turn. unfold_M. cbn.
    match goal with |- context [trySubscribe env ?s0] =>
      destruct (trySubscribe_registers s0 Hgood) as (added & Hh & Hcase);
      destruct (trySubscribe env s0) as [r s1] end.
    cbn in *. rewrite Hh. eexists. rewrite <- !app_assoc. split; [reflexivity|].
    rewrite !countHandlers_app. exact Hcase.
  - unfold turn. unfold_M. cbn.
    match goal with |- context [trySubscribe env ?s0] =>
      destruct (trySubscribe_registers s0 Hgood) as (added & Hh & Hcase);
      destruct (trySubscribe env s0) as [r s1] end.
    cbn in *. rewrite Hh. eexists. rewrite <- !app_assoc. split; [reflexivity|].
    rewrite !countHandlers_app. exact Hcase.
  - destruct (message_turn_no_subscription ev s) as [Hq (added & Hh & Hf)].
    exists added. split; [exact Hh|]. left.
    split; [by apply countHandlers_none|exact Hq].
Qed.

(** X14.  Provided the channels the session resolves belong to a valid
    guild, the loop registers its message handler at most once in a run,
    whatever the order of ready, ready-supplemental, guild-create and
    message events and however often the channel lookup fails first; and
    not at all once a guild is recorded. *)
Theorem handler_registered_at_most_once (cs : list selected) (s : state) :
  (∀ h id ch, Cabinet_Channel env h id = inl ch → IsValid (Channel_GuildID ch) = true) →
  ∃ added,
    history (loop env cs s).2 = history s ++ added
    ∧ (countHandlers added ≤ 1)%nat
    ∧ (IsValid (TargetGuildID (bot s)) = true → countHandlers added = 0%nat).
Proof.
  intros Hgood. revert s. induction cs as [|c cs IH]; intros s.
  - exists []. split; [by rewrite app_nil_r|]. cbn. split; [lia|done].
  - rewrite (loop_cons env c cs s).
    destruct (turn_registers c s Hgood) as (a1 & Hh1 & Hcase).
    destruct (exitOf c).
    + exists a1. split; [exact Hh1|].
      destruct Hcase as [[H0 _]|[H1 [Hv _]]]; rewrite ?H0, ?H1.
      * split; [lia|done].
      * split; [lia|]. intros Hv'. congruence.
    + destruct (IH (turn env c s).2) as (a2 & Hh2 & Hle & Hval).
      exists (a1 ++ a2). rewrite Hh2, Hh1, <- app_assoc. split; [reflexivity|].
      rewrite countHandlers_app.
      destruct Hcase as [[H0 Hg]|[H1 [Hv Hv1]]].
      * rewrite H0. split; [lia|]. intros Hv. rewrite Hval; [lia|]. by rewrite Hg.
      * rewrite H1, (Hval Hv1). split; [lia|]. intros Hv'. congruence.
Qed.

End Registration.

(** ** The further properties at concrete messages *)

Section MoreWitnesses.

#[local] Existing Instance Sample.arikawa.

Lemma loop_returns_only_on_exit_cases_witness :
  Forall (λ c, isExit c = false) [Sample.online; guildCh; msgCh Sample.announceEv]
  ∧ (loop Sample.broken [Sample.online; guildCh; msgCh Sample.announceEv]
       Scenes.unsubscribed).1 = None
  ∧ (loop Sample.world [guildCh; ctx_Done; startupTimeout] Scenes.unsubscribed).1
    = Some context_Canceled
  ∧ ctx_Done ∈ [guildCh; ctx_Done; startupTimeout].
Proof.
  assert (Hall : Forall (λ c, isExit c = false)
                   [Sample.online; guildCh; msgCh Sample.announceEv])
    by (repeat constructor).
  destruct (loop_returns_only_on_exit_cases Sample.broken
              [Sample.online; guildCh; msgCh Sample.announceEv] Scenes.unsubscribed)
    as (_ & Hnone & _).
  destruct (loop_returns_only_on_exit_cases Sample.world
              [guildCh; ctx_Done; startupTimeout] Scenes.unsubscribed)
    as (Hfirst & _ & Hwhy).
  split; [exact Hall|]. split; [exact (Hnone Hall)|]. split; [exact Hfirst|].
  destruct (Hwhy context_Canceled Hfirst) as [[_ Hin]|[Hne _]];
    [exact Hin|discriminate Hne].
Defined.

Lemma trySubscribe_outcomes_witness :
  IsValid (TargetGuildID (bot Scenes.unsubscribed)) = false
  ∧ trySubscribe Sample.broken Scenes.unsubscribed
    = (false, {| bot := bot Scenes.unsubscribed; lastSentAuthors := ∅;
                 history := [CallChannel 710342070342254613;
                             channelFailedEntry (errorString "unknown channel")] |})
  ∧ TargetGuildID (bot (trySubscribe Sample.world Scenes.unsubscribed).2) = 77
  ∧ history (trySubscribe Sample.world Scenes.unsubscribed).2
    = [CallChannel 710342070342254613; CallSubscribe 77; CallAddSyncHandler;
       subscribedEntry (bot Scenes.unsubscribed)
         {| Channel_ID := 710342070342254613; Channel_GuildID := 77 |}]
  ∧ trySubscribe Sample.world (trySubscribe Sample.world Scenes.unsubscribed).2
    = (true, (trySubscribe Sample.world Scenes.unsubscribed).2).
Proof.
  assert (Hv : IsValid (TargetGuildID (bot Scenes.unsubscribed)) = false)
    by reflexivity.
  destruct (trySubscribe_outcomes Sample.broken Scenes.unsubscribed Hv)
    as [Hfail _].
  destruct (trySubscribe_outcomes Sample.world Scenes.unsubscribed Hv)
    as [_ Hok].
  destruct (Hok {| Channel_ID := 710342070342254613; Channel_GuildID := 77 |} eq_refl)
    as [Hrun Hagain].
  split; [reflexivity|].
  split; [exact (Hfail (errorString "unknown channel") eq_refl)|].
  split; [by rewrite Hrun|]. split; [by rewrite Hrun|].
  exact (Hagain eq_refl).
Defined.

Lemma other_turns_are_quiet_witness :
  (∀ ev, Sample.online ≠ msgCh ev)
  ∧ lastSentAuthors (turn Sample.world Sample.online Sample.recorded).2
    = lastSentAuthors Sample.recorded
  ∧ LastAnnouncedTime (bot (turn Sample.world Sample.online Sample.recorded).2)
    = LastAnnouncedTime (bot Sample.recorded)
  ∧ SelfID (bot (turn Sample.world Sample.online Sample.recorded).2) = 42.
Proof.
  assert (Hc : ∀ ev, Sample.online ≠ msgCh ev) by (intros ev; discriminate).
  destruct (other_turns_are_quiet Sample.world Sample.online Sample.recorded Hc)
    as (Hm & Hl & Hi & _).
  split; [exact Hc|]. split; [exact Hm|]. split; [exact Hl|]. exact Hi.
Defined.

Lemma rate_limit_opens_with_time_witness :
  Sample.epoch ≤ Sample.epoch + GoTime.Hour
  ∧ rateLimited (bot Sample.fresh) Sample.epoch = false
  ∧ rateLimited (bot Sample.fresh) (Sample.epoch + GoTime.Hour) = false.
Proof.
  assert (Ht : Sample.epoch ≤ Sample.epoch + GoTime.Hour) by (vm_compute; discriminate).
  split; [exact Ht|]. split; [reflexivity|].
  exact (proj1 (rate_limit_opens_with_time (bot Sample.fresh) Sample.epoch
                  (Sample.epoch + GoTime.Hour) Ht) eq_refl).
Defined.

Lemma parsed_command_reads_off_content_witness :
  (parseCommand Sample.world [] (bot Sample.fresh) Scenes.mixedEv).1
  = Some {| Command := "announce";
            Body := "line one" +:+ GoStrings.LF +:+ "line two" |}
  ∧ authorized Sample.world [] (bot Sample.fresh) Scenes.mixedEv
  ∧ ∃ tail,
      Content (Message_ Scenes.mixedEv)
      = "<@42>" +:+ tail +:+ GoStrings.LF +:+ "line one" +:+ GoStrings.LF +:+ "line two"
      ∧ "announce" = GoStrings.ToLower (GoStrings.TrimSpace tail).
Proof.
  assert (Hp : (parseCommand Sample.world [] (bot Sample.fresh) Scenes.mixedEv).1
               = Some {| Command := "announce";
                         Body := "line one" +:+ GoStrings.LF +:+ "line two" |})
    by (vm_compute; reflexivity).
  destruct (parsed_command_reads_off_content Sample.world [] (bot Sample.fresh)
              Scenes.mixedEv _ Hp) as (Ha & tail & Hc & _ & Hcmd & _).
  split; [exact Hp|]. split; [exact Ha|]. exists tail. split; [exact Hc|exact Hcmd].
Defined.

Lemma command_ignores_ascii_case_witness :
  authorized Sample.world [] (bot Sample.fresh) Sample.shoutedEv
  ∧ authorized Sample.world [] (bot Sample.fresh) Sample.spokenEv
  ∧ noLF (Mention (SelfID (bot Sample.fresh))) = true
  ∧ GoStrings.isASCII " ANNOUNCE" = true
  ∧ noLF " ANNOUNCE" = true
  ∧ GoStrings.mapBytes GoStrings.lowerByte " ANNOUNCE"
    = GoStrings.mapBytes GoStrings.lowerByte " announce"
  ∧ parseCommand Sample.world [] (bot Sample.fresh) Sample.shoutedEv
    = parseCommand Sample.world [] (bot Sample.fresh) Sample.spokenEv.
Proof.
  split; [apply fromAlice_authorized|]. split; [apply fromAlice_authorized|].
  split; [reflexivity|]. split; [reflexivity|]. split; [reflexivity|].
  split; [reflexivity|].
  apply (command_ignores_ascii_case Sample.world [] (bot Sample.fresh)
           Sample.shoutedEv Sample.spokenEv " ANNOUNCE" " announce" "X");
    [apply fromAlice_authorized | apply fromAlice_authorized | reflexivity..].
Defined.

Lemma ascii_command_is_normal_witness :
  (parseCommand Sample.world [] (bot Sample.fresh) Scenes.mixedEv).1
  = Some {| Command := "announce";
            Body := "line one" +:+ GoStrings.LF +:+ "line two" |}
  ∧ GoStrings.isASCII (Content (Message_ Scenes.mixedEv)) = true
  ∧ GoStrings.hasUpper "announce" = false.
Proof.
  assert (Hp : (parseCommand Sample.world [] (bot Sample.fresh) Scenes.mixedEv).1
               = Some {| Command := "announce";
                         Body := "line one" +:+ GoStrings.LF +:+ "line two" |})
    by (vm_compute; reflexivity).
  split; [exact Hp|]. split; [reflexivity|].
  exact (proj1 (ascii_command_is_normal Sample.world [] (bot Sample.fresh)
                  Scenes.mixedEv _ Hp eq_refl)).
Defined.

Lemma commands_are_answered_once_witness :
  Command Sample.announceCmd = "announce"
  ∧ Command Sample.editCmd = "edit"
  ∧ (∃ added,
       history (dispatch Sample.broken Sample.announceEv Sample.announceCmd
                  Sample.fresh).2 = history Sample.fresh ++ added
       ∧ countReplies added = 1%nat)
  ∧ (∃ added,
       history (dispatch Sample.world Sample.editEv Sample.editCmd Sample.recorded).2
       = history Sample.recorded ++ added
       ∧ countReplies added = 0%nat).
Proof.
  split; [reflexivity|]. split; [reflexivity|]. split.
  - exact (proj1 (commands_are_answered_once Sample.broken Sample.announceEv
                    Sample.announceCmd Sample.fresh) eq_refl).
  - exact (proj2 (commands_are_answered_once Sample.world Sample.editEv
                    Sample.editCmd Sample.recorded) eq_refl).
Defined.

Lemma handler_registered_at_most_once_witness :
  (∀ h id ch, Cabinet_Channel Sample.world h id = inl ch →
     IsValid (Channel_GuildID ch) = true)
  ∧ ∃ added,
      history (loop Sample.world [guildCh; Sample.online; readySupplementalCh]
                 Scenes.unsubscribed).2 = history Scenes.unsubscribed ++ added
      ∧ (countHandlers added ≤ 1)%nat.
Proof.
  assert (Hgood : ∀ h id ch, Cabinet_Channel Sample.world h id = inl ch →
                    IsValid (Channel_GuildID ch) = true)
    by (intros h id ch [= <-]; reflexivity).
  destruct (handler_registered_at_most_once Sample.world
              [guildCh; Sample.online; readySupplementalCh] Scenes.unsubscribed Hgood)
    as (added & Hh & Hle & _).
  split; [exact Hgood|]. exists added. split; [exact Hh|exact Hle].
Defined.

End MoreWitnesses.
